(** * translatenow: the interview chatbot (utils.py, app.py)

    A shallow embedding of the Python sources.  Python values are modelled
    as follows.

    - A [str] is the sequence of its code points, each below 256: one
      character of a [string] is one code point.
    - [str | None] is [option string]; [None] is Python's [None].
    - A Gradio turn pair [[user, bot]] is a [turn], a pair of slots; the
      transcript is a [list turn].
    - An OpenAI message [{"role": r, "content": c}] is the record [message].
    - A raised exception is [Raise e]; a normal return is [Ok v].
    - A [dict] with string keys is a [gmap string _]; [set(d)] is [dom d].
    - The log files are a finite map from files to the lines appended so
      far; which file a path opens, or why it cannot be opened, is the
      operating system's answer and part of the world. *)

From Stdlib Require Import ZArith Ascii String.
From stdpp Require Import gmap strings list fin_maps.

Local Open Scope string_scope.
Local Open Scope list_scope.

(** ** Exceptions and results *)

Inductive exn : Type :=
  | IndexError
  | KeyError
  | ValueError
  | TypeError
  | FileNotFoundError
  | Unmodelled.

Inductive result (A : Type) : Type :=
  | Ok (a : A)
  | Raise (e : exn).

Arguments Ok {A} a.
Arguments Raise {A} e.

Definition bind {A B : Type} (r : result A) (k : A -> result B) : result B :=
  match r with
  | Ok a => k a
  | Raise e => Raise e
  end.

Notation "'let*' x ':=' r 'in' k" := (bind r (fun x => k))
  (at level 10, x pattern, r at level 100, k at level 200).

(** [d[k]] on a dict: [KeyError] when the key is absent. *)
Definition getitem {V : Type} (d : gmap string V) (k : string) : result V :=
  match d !! k with
  | Some v => Ok v
  | None => Raise KeyError
  end.

(** [d.get(k, default)]. *)
Definition get_default {V : Type} (d : gmap string V) (k : string) (dflt : V) : V :=
  match d !! k with
  | Some v => v
  | None => dflt
  end.

(** [l[i]] on a list with a non-negative index. *)
Definition index {A : Type} (l : list A) (i : nat) : result A :=
  match l !! i with
  | Some x => Ok x
  | None => Raise IndexError
  end.

(** [l[z]] with Python's index rule: a negative index counts from the end,
    and anything outside [-len(l), len(l)) raises [IndexError]. *)
Definition py_index {A : Type} (l : list A) (z : Z) : result A :=
  let n := Z.of_nat (length l) in
  if (0 <=? z)%Z then index l (Z.to_nat z)
  else if (0 <=? z + n)%Z then index l (Z.to_nat (z + n))
  else Raise IndexError.

(** ** Built-in string operations *)

(** The value of an ASCII decimal digit. *)
Definition digit_val (c : ascii) : option nat :=
  let n := nat_of_ascii c in
  if (48 <=? n)%nat && (n <=? 57)%nat then Some (n - 48) else None.

(** [sub in s] on strings. *)
Fixpoint str_contains (sub s : string) : bool :=
  String.prefix sub s
  || match s with
     | EmptyString => false
     | String _ s' => str_contains sub s'
     end.

(** The scan of [s.replace(old, new)] for a non-empty [old]: occurrences
    are taken left to right and do not overlap; [skip] counts the
    characters of a matched occurrence still to be passed over. *)
Fixpoint replace_scan (old new s : string) (skip : nat) : string :=
  match s with
  | EmptyString => EmptyString
  | String c s' =>
      match skip with
      | S k => replace_scan old new s' k
      | O =>
          if String.prefix old s
          then new +:+ replace_scan old new s' (String.length old - 1)
          else String c (replace_scan old new s' 0)
      end
  end.

(** With an empty [old], [new] goes before every character and at the end. *)
Fixpoint replace_empty (new s : string) : string :=
  match s with
  | EmptyString => new
  | String c s' => new +:+ String c (replace_empty new s')
  end.

Definition str_replace (old new s : string) : string :=
  if bool_decide (old = "") then replace_empty new s
  else replace_scan old new s 0.

(** Characters [int()] strips from both ends of its argument: the C
    white space (tab to carriage return, and the blank), and the two
    code points of 127 and above that it first turns into a blank, next
    line (133) and no-break space (160). *)
Definition is_space (c : ascii) : bool :=
  let n := nat_of_ascii c in
  ((9 <=? n)%nat && (n <=? 13)%nat)
  || (n =? 32)%nat || (n =? 133)%nat || (n =? 160)%nat.

Fixpoint lstrip (s : string) : string :=
  match s with
  | EmptyString => EmptyString
  | String c s' => if is_space c then lstrip s' else s
  end.

Fixpoint rstrip (s : string) : string :=
  match s with
  | EmptyString => EmptyString
  | String c s' =>
      match rstrip s' with
      | EmptyString => if is_space c then EmptyString else String c EmptyString
      | r => String c r
      end
  end.

(** Decimal digits, single underscores allowed between them.  [sep] says
    that the previous character was not a digit. *)
Fixpoint int_digits (s : string) (acc : Z) (sep : bool) : option Z :=
  match s with
  | EmptyString => if sep then None else Some acc
  | String c s' =>
      match digit_val c with
      | Some d => int_digits s' (acc * 10 + Z.of_nat d)%Z false
      | None =>
          if bool_decide (c = "_"%char) && negb sep
          then int_digits s' acc true
          else None
      end
  end.

Fixpoint count_digits (s : string) : nat :=
  match s with
  | EmptyString => 0
  | String c s' =>
      match digit_val c with
      | Some _ => S (count_digits s')
      | None => count_digits s'
      end
  end.

(** The default of [sys.get_int_max_str_digits()]. *)
Definition max_str_digits : nat := 4300.

(** [int(s)] for a string: [ValueError] unless [s] is a decimal literal
    of at most [max_str_digits] digits. *)
Definition py_int (s : string) : result Z :=
  let t := rstrip (lstrip s) in
  let body :=
    match t with
    | String "+"%char r => r
    | String "-"%char r => r
    | _ => t
    end in
  let negative :=
    match t with
    | String "-"%char _ => true
    | _ => false
    end in
  match int_digits body 0 true with
  | Some z =>
      if (max_str_digits <? count_digits body)%nat then Raise ValueError
      else Ok (if negative then (- z)%Z else z)
  | None => Raise ValueError
  end.

(** *** Paths *)

(** [s.split("/")] *)
Fixpoint split_slash (s : string) : list string :=
  match s with
  | EmptyString => [EmptyString]
  | String c s' =>
      if bool_decide (c = "/"%char) then EmptyString :: split_slash s'
      else
        match split_slash s' with
        | h :: t => String c h :: t
        | [] => [String c EmptyString]
        end
  end.

(** ["/".join(parts)] *)
Fixpoint join_slash (parts : list string) : string :=
  match parts with
  | [] => EmptyString
  | [x] => x
  | x :: rest => x +:+ "/" +:+ join_slash rest
  end.

Fixpoint ends_with_slash (s : string) : bool :=
  match s with
  | EmptyString => false
  | String c EmptyString => bool_decide (c = "/"%char)
  | String _ s' => ends_with_slash s'
  end.

(** [posixpath.join(a, b)] *)
Definition posix_join (a b : string) : string :=
  match b with
  | String "/"%char _ => b
  | _ =>
      if bool_decide (a = "") || ends_with_slash a then a +:+ b
      else a +:+ "/" +:+ b
  end.

(** [posixpath.splitroot]: the root, one slash or exactly two, and what
    follows it. *)
Definition splitroot (p : string) : string * string :=
  match p with
  | String "/"%char (String "/"%char (String "/"%char r)) =>
      ("/", String "/"%char (String "/"%char r))
  | String "/"%char (String "/"%char r) => ("//", r)
  | String "/"%char r => ("/", r)
  | _ => ("", p)
  end.

(** The text of a [pathlib] path made from [p]: empty components and
    [.] components are dropped. *)
Definition path_str (p : string) : string :=
  let '(root, rel) := splitroot p in
  let tail :=
    filter (fun x => x <> "" /\ x <> ".") (split_slash rel) in
  let text := root +:+ join_slash tail in
  if bool_decide (text = "") then "." else text.

(** ** Transcripts and messages *)

Abbreviation slot := (option string) (only parsing).
Abbreviation turn := (option string * option string)%type (only parsing).

Record message : Type := Message {
  role : string;
  content : slot;
}.

Module Utils.

(** *** Format adapters (utils.py, lines 108-129) *)

(** [not ((pair[i] is None) or (pair[i] == ""))] *)
Definition filled (s : slot) : bool :=
  match s with
  | None => false
  | Some "" => false
  | Some _ => true
  end.

Definition slot_messages (r : string) (s : slot) : list message :=
  if filled s then [Message r s] else [].

(** The inner loop over [enumerate(["user", "assistant"])]. *)
Definition pair_messages (p : turn) : list message :=
  slot_messages "user" (fst p) ++ slot_messages "assistant" (snd p).

Fixpoint convert_gradio_to_openai (chat_history : list turn) : list message :=
  match chat_history with
  | [] => []
  | p :: rest => pair_messages p ++ convert_gradio_to_openai rest
  end.

(** [range(0, n, 2)], as [count] indices from [start]. *)
Fixpoint range_step2 (start count : nat) : list nat :=
  match count with
  | O => []
  | S c => start :: range_step2 (S (S start)) c
  end.

Definition range_0_n_2 (n : nat) : list nat := range_step2 0 (Nat.div2 (S n)).

(** The body of the [for i in range(0, len(messages), 2)] loop, run over
    the indices [idx] with the pairs appended so far in [acc]. *)
Fixpoint group_loop (messages : list message) (idx : list nat)
    (acc : list turn) : result (list turn) :=
  match idx with
  | [] => Ok acc
  | i :: idx' =>
      let* a := index messages i in
      let* b := index messages (i + 1) in
      group_loop messages idx' (acc ++ [(content a, content b)])
  end.

(** [messages[0]["role"] != "user"] and the conditional [insert(0, ...)]:
    the message list that the grouping loop then walks. *)
Definition with_leading_user (messages : list message) : result (list message) :=
  let* m0 := index messages 0 in
  if decide (role m0 = "user") then Ok messages
  else Ok (Message "user" None :: messages).

Definition convert_openai_to_gradio (messages : list message) : result (list turn) :=
  let* messages' := with_leading_user messages in
  group_loop messages' (range_0_n_2 (length messages')) [].

(** *** Chat log (utils.py, lines 16-42) *)

(** One line of a session's [.jsonl] file: the object handed to
    [json.dumps].  [message] is [None] for a slot that holds [None]. *)
Record log_entry : Type := LogEntry {
  le_session : string;
  le_timestamp : string;
  le_role : string;
  le_message : slot;
}.

(** The part of the outside world the program writes to and reads the time
    from.  [fs_open path] is what [open(path, "a+")] and the write that
    follows meet: the file the path denotes, or the error raised (a
    missing directory gives [FileNotFoundError]).  [clock n] is what the [n]-th call of
    [datetime.datetime.now().isoformat()] returns; [base_log] collects the
    lines given to [base_logger.info]. *)
Record world : Type := World {
  files : gmap string (list log_entry);
  fs_open : string -> result string;
  clock : nat -> string;
  clock_reads : nat;
  base_log : list string;
}.

(** Computations that may change the world and may raise; the world
    reached is kept when they raise. *)
Definition io (A : Type) : Type := world -> result A * world.

Definition ret {A : Type} (a : A) : io A := fun w => (Ok a, w).

Definition throw {A : Type} (e : exn) : io A := fun w => (Raise e, w).

Definition lift {A : Type} (r : result A) : io A := fun w => (r, w).

Definition io_bind {A B : Type} (m : io A) (k : A -> io B) : io B :=
  fun w =>
    match m w with
    | (Ok a, w') => k a w'
    | (Raise e, w') => (Raise e, w')
    end.

Notation "'do' x '<-' m ';' k" := (io_bind m (fun x => k))
  (at level 10, x pattern, m at level 100, k at level 200).

Definition get_current_timestamp : io string :=
  fun w =>
    (Ok (clock w (clock_reads w)),
     World (files w) (fs_open w) (clock w) (S (clock_reads w)) (base_log w)).

Record ChatLoggerHandler : Type := { logdir : string }.

(** [self.logdir / f"{session}.jsonl"], as the text handed to [open]. *)
Definition log_path (self : ChatLoggerHandler) (session : string) : string :=
  path_str (posix_join (logdir self) (session +:+ ".jsonl")).

(** [open(path, "a+")] followed by one [write]: when the path opens, the
    file is created if it does not exist and the line goes after
    everything already there; when it does not, the error is raised and
    nothing is written. *)
Definition append_line (path : string) (line : log_entry) : io unit :=
  fun w =>
    match fs_open w path with
    | Ok file =>
        (Ok tt,
         World (<[file := default [] (files w !! file) ++ [line]]> (files w))
               (fs_open w) (clock w) (clock_reads w) (base_log w))
    | Raise e => (Raise e, w)
    end.

Definition record (self : ChatLoggerHandler) (session r : string)
    (rec : slot) : io unit :=
  do ts <- get_current_timestamp;
  append_line (log_path self session) (LogEntry session ts r rec).

Definition record_chat (logger : ChatLoggerHandler) (session r : string)
    (rec : slot) : io unit :=
  record logger session r rec.

(** *** Prompt templates (utils.py, lines 46-94) *)

(** A template string is held as the items [string.Formatter().parse]
    yields for it: a literal text followed by the name of the replacement
    field that ends it, or by [None] for the text after the last field.
    Replacement fields carry no conversion and no format specification.
    A field name may have an attribute or index part ([{a.b}], [{0[1]}]);
    what [str.format] makes of that part is not modelled, see
    [get_field]. *)
Definition item : Type := (string * option string)%type.

Record PromptTemplate : Type := { template : list item }.

(** [[fn for _, fn, _, _ in Formatter().parse(self.template) if fn is not None]] *)
Definition parse_template (self : PromptTemplate) : list string :=
  omap snd (template self).

Definition variables (self : PromptTemplate) : list string := parse_template self.

(** A positional argument of [format]: a string, or a dict together with
    the text [str()] gives for it. *)
Inductive arg : Type :=
  | AStr (s : string)
  | ADict (d : gmap string string) (shown : string).

Definition arg_str (a : arg) : string :=
  match a with
  | AStr s => s
  | ADict _ shown => shown
  end.

(** **** [str.format] on the parsed template *)

(** What the first part of a field name is read as. *)
Inductive field_index : Type :=
  | IsIndex (i : N)
  | NotIndex
  | TooManyDigits.

(** The largest index, on a 64-bit build. *)
Definition PY_SSIZE_T_MAX : N := 9223372036854775807.

Fixpoint get_integer_from (s : string) (acc : N) : field_index :=
  match s with
  | EmptyString => IsIndex acc
  | String c s' =>
      match digit_val c with
      | Some d =>
          if ((PY_SSIZE_T_MAX - N.of_nat d) / 10 <? acc)%N then TooManyDigits
          else get_integer_from s' (acc * 10 + N.of_nat d)%N
      | None => NotIndex
      end
  end.

(** The positional index a name denotes if it is all digits; the digits
    are read from the left and the overflow is met before a later
    character that is not a digit. *)
Definition get_integer (s : string) : field_index :=
  match s with
  | EmptyString => NotIndex
  | _ => get_integer_from s 0
  end.

Definition is_accessor (c : ascii) : bool :=
  bool_decide (c = "."%char) || bool_decide (c = "["%char).

(** The field name up to its first [.] or [[]. *)
Fixpoint first_part (name : string) : string :=
  match name with
  | EmptyString => EmptyString
  | String c s => if is_accessor c then EmptyString else String c (first_part s)
  end.

(** The field name from its first [.] or [[] on. *)
Fixpoint rest_part (name : string) : string :=
  match name with
  | EmptyString => EmptyString
  | String c s => if is_accessor c then name else rest_part s
  end.

(** [args[i]] for an index read from the field name. *)
Definition index_N {A : Type} (l : list A) (i : N) : result A :=
  if (i <? N.of_nat (length l))%N then index l (N.to_nat i)
  else Raise IndexError.

(** Automatic ([{}]) against manual ([{0}]) field numbering. *)
Inductive an_state : Type := ANS_INIT | ANS_AUTO | ANS_MANUAL.

(** The object the first part of a field name denotes, as the text
    [str()] gives for it, and the numbering state after it. *)
Definition get_first (args : list arg) (kwargs : gmap string string)
    (st : an_state * nat) (first : string) : result (string * (an_state * nat)) :=
  let '(state, next) := st in
  match get_integer first with
  | TooManyDigits => Raise ValueError
  | IsIndex i =>
      match state with
      | ANS_AUTO => Raise ValueError
      | _ => let* v := index_N args i in Ok (arg_str v, (ANS_MANUAL, next))
      end
  | NotIndex =>
      if bool_decide (first = "") then
        match state with
        | ANS_MANUAL => Raise ValueError
        | _ => let* v := index args next in Ok (arg_str v, (ANS_AUTO, S next))
        end
      else let* v := getitem kwargs first in Ok (v, st)
  end.

(** The value of one replacement field and the numbering state after it.
    The first part of the name is looked up as [str.format] does; a name
    that goes on with an attribute or index part gives [Unmodelled] once
    its first part has been found. *)
Definition get_field (args : list arg) (kwargs : gmap string string)
    (st : an_state * nat) (name : string) : result (string * (an_state * nat)) :=
  let* got := get_first args kwargs st (first_part name) in
  if bool_decide (rest_part name = "") then Ok got else Raise Unmodelled.

Fixpoint format_items (items : list item) (args : list arg)
    (kwargs : gmap string string) (st : an_state * nat) : result string :=
  match items with
  | [] => Ok ""
  | (text, None) :: rest =>
      let* out := format_items rest args kwargs st in Ok (text +:+ out)
  | (text, Some name) :: rest =>
      let* got := get_field args kwargs st name in
      let* out := format_items rest args kwargs (snd got) in
      Ok (text +:+ fst got +:+ out)
  end.

(** [self.template.format] applied to the positional [args] and the
    keyword arguments [kwargs]. *)
Definition str_format (self : PromptTemplate) (args : list arg)
    (kwargs : gmap string string) : result string :=
  format_items (template self) args kwargs (ANS_INIT, 0).

(** **** [PromptTemplate.format] *)

Definition format (self : PromptTemplate) (args : list arg)
    (kwargs : gmap string string) : result string :=
  if bool_decide (kwargs <> ∅)
     && bool_decide (dom kwargs <> (list_to_set (variables self) : gset string))
  then Raise ValueError
  else if bool_decide (args <> [])
          && bool_decide (length args <> length (variables self))
  then Raise ValueError
  else
    match args with
    | [ADict arg_dict _] =>
        if bool_decide (dom arg_dict <> (list_to_set (variables self) : gset string))
        then Raise ValueError
        else str_format self [] arg_dict
    | _ =>
        if bool_decide (args = []) && bool_decide (kwargs = ∅)
           && bool_decide (variables self <> [])
        then Raise ValueError
        else
          match str_format self args kwargs with
          | Raise KeyError => Raise ValueError
          | r => r
          end
    end.

(** *** Archive (utils.py, lines 164-174) *)

(** The container the connection string and container name of the
    environment designate: blob names to blob contents.  A content is the
    list of records whose [json.dumps] lines, joined by newlines, make
    the uploaded text. *)
Abbreviation container := (gmap string (list message)) (only parsing).

(** [upload_blob(..., overwrite=True)]: the blob is created or replaced. *)
Definition upload_blob (blob_name : string) (records : list message)
    (store : container) : container :=
  <[blob_name := records]> store.

Definition upload_azure (conversation_id : string) (chat_history : list turn)
    (store : container) : container :=
  let blob_name := conversation_id in
  let records := convert_gradio_to_openai chat_history in
  upload_blob blob_name records store.

End Utils.

Module App.

Import Utils.

(** *** Shared assets (app.py, lines 46-51) *)

Definition chat_logger : ChatLoggerHandler := {| logdir := "./logs" |}.

(** A question file, [{"question": ..., "choices": [...]}]. *)
Record question_data : Type := {
  question : string;
  choices : list string;
}.

(** What the process reads from [assets/]: the identifier-to-filename
    table loaded at start, the question files and the template files,
    both keyed by the path they are opened with.  A path that is not a key
    is a file that does not exist. *)
Record assets : Type := {
  question_mapping : gmap string string;
  question_files : gmap string question_data;
  template_files : gmap string PromptTemplate;
}.

Definition read_file {V : Type} (fs : gmap string V) (path : string) : result V :=
  match fs !! path with
  | Some v => Ok v
  | None => Raise FileNotFoundError
  end.

(** [PromptTemplate.from_file] *)
Definition from_file (a : assets) (file_path : string) : result PromptTemplate :=
  read_file (template_files a) file_path.

(** [base_logger.info(line)] *)
Definition info (line : string) : io unit :=
  fun w =>
    (Ok tt,
     World (files w) (fs_open w) (clock w) (clock_reads w) (base_log w ++ [line])).

(** *** Initialization (app.py, lines 64-97) *)

Definition initialize_interview (a : assets) (request_params : gmap string string)
    : io (string * string * string * string * string) :=
  let user_id := get_default request_params "user" "testUser" in
  let session_id := get_default request_params "session" "testSession" in
  do _ <- info ("User: " +:+ user_id +:+ " (Session: " +:+ session_id +:+ ")");
  let question_id := get_default request_params "questionid" "0" in
  let response_id := get_default request_params "response" "0" in
  do file_name <- lift (getitem (question_mapping a) question_id);
  do question_data <-
    lift (read_file (question_files a) ("./assets/questions/" +:+ file_name));
  let question_wording := question question_data in
  let question_choices := choices question_data in
  do response_index <- lift (py_int response_id);
  do response_text <- lift (py_index question_choices response_index);
  do _ <- info ("Question: " +:+ question_wording +:+ " (" +:+ response_text +:+ ")");
  do initial_template <- lift (from_file a "assets/initial_message.txt");
  do initial_message <-
    lift (format initial_template [] {[ "surveyQuestion" := question_wording ]});
  do system_template <- lift (from_file a "assets/system_message.txt");
  do system_message <-
    lift (format system_template []
            (<[ "surveyQuestion" := question_wording ]>
               {[ "responseVal" := response_text ]}));
  do _ <- info ("Initial message: " +:+ initial_message);
  do _ <- info ("System message: " +:+ system_message);
  ret (user_id, session_id, question_wording, initial_message, system_message).

(** *** Interaction (app.py, lines 142-218) *)

Definition user_message (message : string) (chat_history : list turn)
    : string * list turn :=
  ("", chat_history ++ [(Some message, None)]).

(** [chat_history[-1]] *)
Definition last_turn (chat_history : list turn) : result turn :=
  py_index chat_history (-1).

(** [chat_history[-1][1] = v], for a transcript whose last pair exists. *)
Definition set_last_bot (chat_history : list turn) (v : slot) : list turn :=
  alter (fun p : turn => (fst p, v)) (length chat_history - 1) chat_history.

Definition model_args : Type := gmap string string.

Definition default_model_args : model_args :=
  <[ "model" := "gpt-4o-default" ]> {[ "temperature" := "0.0" ]}.

(** A streamed chunk: [delta.content] of each of its choices. *)
Record chunk : Type := { chunk_choices : list slot }.

(** The completion service: the stream it answers a request with. *)
Definition client : Type := list message -> model_args -> list chunk.

(** Lines 156-162: the message list of the request. *)
Definition prep_messages (chat_history : list turn) (system_message : string)
    : result (list message) :=
  let* last := last_turn chat_history in
  let user_msg := fst last in
  let messages := convert_gradio_to_openai (removelast chat_history) in
  Ok ([Message "system" (Some system_message)]
        ++ messages
        ++ [Message "user" user_msg]).

(** What one run of the generator leaves behind: the transcript object
    after the last statement executed, the transcript as it stood at each
    [yield], and how the run ended. *)
Record streamed : Type := Streamed {
  chat_after : list turn;
  yields : list (list turn);
  outcome : result unit;
}.

(** Lines 169-173: the loop over the chunks of the response. *)
Fixpoint stream_loop (chat_history : list turn) (response : list chunk)
    (yielded : list (list turn)) : streamed :=
  match response with
  | [] => Streamed chat_history yielded (Ok tt)
  | ch :: rest =>
      match index (chunk_choices ch) 0 with
      | Raise e => Streamed chat_history yielded (Raise e)
      | Ok None => stream_loop chat_history rest yielded
      | Ok (Some "") => stream_loop chat_history rest yielded
      | Ok (Some delta) =>
          match last_turn chat_history with
          | Raise e => Streamed chat_history yielded (Raise e)
          | Ok (_, None) => Streamed chat_history yielded (Raise TypeError)
          | Ok (_, Some text) =>
              let chat_history' := set_last_bot chat_history (Some (text +:+ delta)) in
              stream_loop chat_history' rest (yielded ++ [chat_history'])
          end
      end
  end.

(** The request sent, and the run of the streaming loop on its answer. *)
Record bot_run : Type := BotRun {
  request_messages : list message;
  request_args : model_args;
  run : streamed;
}.

Definition bot_message (api : client) (chat_history : list turn)
    (system_message : string) (margs : model_args) : result bot_run :=
  let* messages := prep_messages chat_history system_message in
  let response := api messages margs in
  let chat_history' := set_last_bot chat_history (Some "") in
  Ok (BotRun messages margs (stream_loop chat_history' response [])).

Definition log_interaction (chat_history : list turn) (session_id : string)
    : io unit :=
  do last <- lift (last_turn chat_history);
  do _ <- record_chat chat_logger session_id "user" (fst last);
  do last' <- lift (last_turn chat_history);
  record_chat chat_logger session_id "bot" (snd last').

(** The Gradio components the end check returns, with the attributes it
    sets. *)
Record Textbox : Type := {
  tb_placeholder : string;
  tb_visible : bool;
  tb_interactive : bool;
  tb_show_label : bool;
  tb_scale : nat;
}.

Record Button : Type := {
  btn_value : string;
  btn_variant : string;
  btn_interactive : option bool;
  btn_icon : option string;
  btn_visible : bool;
}.

Definition default_limit : Z := 20.
Definition default_end_of_interview : string := "<end_of_survey>".

Definition interview_end_check (chat_history : list turn) (limit : Z)
    (end_of_interview : string)
    : result (list turn * Button * Textbox * Button) :=
  let flag := bool_decide (limit <= Z.of_nat (length chat_history))%Z in
  let* last := last_turn chat_history in
  match snd last with
  | None => Raise TypeError
  | Some text =>
      let hit := str_contains end_of_interview text in
      let chat_history' :=
        if hit then set_last_bot chat_history (Some (str_replace end_of_interview "" text))
        else chat_history in
      let flag' := if hit then true else flag in
      let input_button :=
        {| tb_placeholder := "Type response here. Hit `Enter` or click the arrow to submit.";
           tb_visible := negb flag';
           tb_interactive := true;
           tb_show_label := false;
           tb_scale := 10 |} in
      let submit_button :=
        {| btn_value := "";
           btn_variant := "primary";
           btn_interactive := Some true;
           btn_icon := Some "./arrow_icon.svg";
           btn_visible := negb flag' |} in
      let button :=
        {| btn_value := "Save and Exit";
           btn_variant := "stop";
           btn_interactive := None;
           btn_icon := None;
           btn_visible := flag' |} in
      Ok (chat_history', button, input_button, submit_button)
  end.

(** *** Interface switch (app.py, lines 99-132) *)

Record Markdown : Type := { md_value : string }.

Record Chatbot : Type := {
  cb_value : list turn;
  cb_elem_id : string;
  cb_show_label : bool;
  cb_visible : bool;
}.

Definition initialize_interface (initial_message : string)
    : Markdown * Chatbot * Textbox * Button * Button :=
  let instruction_text := {| md_value := "" |} in
  let chat_display :=
    {| cb_value := [(None, Some initial_message)];
       cb_elem_id := "chatDisplay";
       cb_show_label := false;
       cb_visible := true |} in
  let chat_input :=
    {| tb_placeholder := "Type response here. Hit `Enter` or click the arrow to submit.";
       tb_visible := true;
       tb_interactive := true;
       tb_show_label := false;
       tb_scale := 10 |} in
  let chat_submit :=
    {| btn_value := "";
       btn_variant := "primary";
       btn_interactive := Some true;
       btn_icon := Some "./arrow_icon.svg";
       btn_visible := true |} in
  let start_button :=
    {| btn_value := "Start Interview";
       btn_variant := "primary";
       btn_interactive := None;
       btn_icon := None;
       btn_visible := false |} in
  (instruction_text, chat_display, chat_input, chat_submit, start_button).

(** *** Completion (app.py, lines 227-253) *)

(** [uuid] is the text of the identifier [uuid4()] draws. *)
Definition generate_completion_code (prefix uuid : string) : string :=
  prefix +:+ uuid.

Definition upload_interview (session_id : string) (chat_history : list turn)
    (store : container) : container :=
  upload_azure session_id chat_history store.

Record Text : Type := {
  txt_value : string;
  txt_visible : bool;
  txt_show_label : bool;
  txt_scale : nat;
}.

Definition newline : string := String (ascii_of_nat 10) "".

Definition end_interview (uuid : string) (session_id : string)
    (chat_history : list turn) (store : container)
    : (list turn * Text) * container :=
  let completion_message :=
    "Thank you for participating." +:+ newline +:+ newline
    +:+ "Your completion code is: " +:+ generate_completion_code "cd-" uuid
    +:+ newline +:+ newline
    +:+ "Please now return to the Qualtrics survey "
    +:+ "and paste this code into the  completion "
    +:+ "code box." in
  let store' := upload_interview session_id chat_history store in
  let end_message :=
    {| txt_value := completion_message;
       txt_visible := true;
       txt_show_label := false;
       txt_scale := 10 |} in
  ((chat_history, end_message), store').

End App.

(** ** Vocabulary of the properties *)

Module Spec.

Import Utils App.

(** Every pair has both slots filled with a non-empty string. *)
Definition well_formed (T : list turn) : Prop :=
  Forall (fun p : turn => filled (fst p) = true /\ filled (snd p) = true) T.

(** A field name that [str.format] looks up among the keyword arguments
    and takes as it is: not empty, not a number, and without attribute
    or index part. *)
Definition keyword_name (name : string) : Prop :=
  name <> "" /\ get_integer name = NotIndex /\ rest_part name = "".

(** The template text with each placeholder replaced by the value the
    mapping holds for it. *)
Fixpoint substitute (items : list item) (values : gmap string string) : string :=
  match items with
  | [] => ""
  | (text, None) :: rest => text +:+ substitute rest values
  | (text, Some name) :: rest =>
      text +:+ default "" (values !! name) +:+ substitute rest values
  end.

(** The text fragment a chunk delivers: [delta.content] of its first
    choice when that is a non-empty string. *)
Definition fragment (ch : chunk) : option string :=
  match chunk_choices ch with
  | Some (String c s) :: _ => Some (String c s)
  | _ => None
  end.

(** The non-empty fragments of a response, in arrival order. *)
Definition fragments (response : list chunk) : list string :=
  omap fragment response.

Fixpoint join (texts : list string) : string :=
  match texts with
  | [] => ""
  | t :: rest => t +:+ join rest
  end.

(** The text accumulated after each fragment, starting from [acc]. *)
Fixpoint running_texts (acc : string) (texts : list string) : list string :=
  match texts with
  | [] => []
  | t :: rest => (acc +:+ t) :: running_texts (acc +:+ t) rest
  end.

(** The two transcripts of a session's first two turns after [before]. *)
Definition after_turn1 (before : list turn) (u1 b1 : slot) : list turn :=
  before ++ [(u1, b1)].

Definition after_turn2 (before : list turn) (u1 b1 u2 b2 : slot) : list turn :=
  after_turn1 before u1 b1 ++ [(u2, b2)].

(** Twenty pairs, the last one still waiting for its bot text. *)
Definition twenty_pairs_last_pending : list turn :=
  repeat (Some "question", Some "answer") 19 ++ [(Some "question", None)].

(** The indices Python accepts for a list of length [n]. *)
Definition index_valid (n : nat) (i : Z) : Prop :=
  (- Z.of_nat n <= i < Z.of_nat n)%Z.

(** The position a valid index denotes, counted from the front. *)
Definition index_position (n : nat) (i : Z) : nat :=
  Z.to_nat (if (0 <=? i)%Z then i else i + Z.of_nat n).

(** The example question of the interview, with its assets. *)
Definition example_assets : assets := {|
  question_mapping := {[ "0" := "q0.json" ]};
  question_files :=
    {[ "./assets/questions/q0.json" :=
         {| question := "How satisfied were you?";
            choices := ["Low"; "Medium"; "High"] |} ]};
  template_files :=
    <[ "assets/initial_message.txt" :=
         {| template := [("Let us talk about: ", Some "surveyQuestion")] |} ]>
      {[ "assets/system_message.txt" :=
           {| template := [("The participant answered ", Some "responseVal");
                            (" to the question: ", Some "surveyQuestion")] |} ]};
|}.

(** A world with no log yet, in which every path opens a file of its
    own. *)
Definition quiet_world : world :=
  World ∅ (fun path => Ok path) (fun _ => "2024-04-07T10:00:00") 0 [].

(** A world with no log yet, in which the directory [logs/a] does not
    exist. *)
Definition world_without_logs_a : world :=
  World ∅ (fun path => if bool_decide (path = "logs/a/b.jsonl")
                       then Raise FileNotFoundError else Ok path)
        (fun _ => "2024-04-07T10:00:00") 0 [].

(** The pairs a message list groups into, two messages at a time. *)
Fixpoint pairs_of (messages : list message) : list turn :=
  match messages with
  | a :: b :: rest => (content a, content b) :: pairs_of rest
  | _ => []
  end.

(** The message list is user, assistant, user, assistant, ... *)
Fixpoint alternates (messages : list message) : bool :=
  match messages with
  | [] => true
  | u :: a :: rest =>
      bool_decide (role u = "user") && bool_decide (role a = "assistant")
      && alternates rest
  | _ => false
  end.

(** The list [convert_openai_to_gradio] groups: [messages] itself, or
    [messages] behind a user message with content [None]. *)
Definition prepared (m0 : message) (rest : list message) : list message :=
  if decide (role m0 = "user") then m0 :: rest
  else Message "user" None :: m0 :: rest.


Fixpoint has_char (c : ascii) (s : string) : bool :=
  match s with
  | EmptyString => false
  | String c' s' => bool_decide (c' = c) || has_char c s'
  end.

End Spec.

(** * Properties *)

(** ** What [replace] does *)

Section Replace.

Lemma str_app_nil_r (s : string) : s +:+ "" = s.
Proof.
  induction s as [|c s IH]; [reflexivity|].
  change (String c (s +:+ "") = String c s). now rewrite IH.
Qed.

Lemma str_app_assoc (s t u : string) : (s +:+ t) +:+ u = s +:+ (t +:+ u).
Proof.
  induction s as [|c s IH]; [reflexivity|].
  change (String c ((s +:+ t) +:+ u) = String c (s +:+ (t +:+ u))).
  now rewrite IH.
Qed.

Lemma prefix_nil (s : string) : String.prefix "" s = true.
Proof. now destruct s. Qed.

Lemma prefix_app (old rest : string) : String.prefix old (old +:+ rest) = true.
Proof.
  induction old as [|c old IH]; [apply prefix_nil|].
  change (String.prefix (String c old) (String c (old +:+ rest)) = true).
  simpl. now destruct (ascii_dec c c).
Qed.

(** A text without any occurrence of [old] is returned as it is. *)
Lemma replace_scan_absent (old new : string) :
  forall s, str_contains old s = false -> replace_scan old new s 0 = s.
Proof.
  induction s as [|c s IH]; intros Habs; [reflexivity|].
  cbn [str_contains] in Habs. apply orb_false_iff in Habs as [Hhere Hlater].
  cbn [replace_scan]. rewrite Hhere. now rewrite IH.
Qed.

(** The characters of a matched occurrence are passed over. *)
Lemma replace_scan_skip (old new post : string) :
  forall x, replace_scan old new (x +:+ post) (String.length x)
            = replace_scan old new post 0.
Proof.
  induction x as [|c x IH]; [reflexivity|].
  change (replace_scan old new (String c (x +:+ post)) (S (String.length x))
          = replace_scan old new post 0).
  cbn [replace_scan]. exact IH.
Qed.

(** [replace] at the first occurrence of [old]: the text before it is
    kept, [new] takes its place, and the scan goes on after it. *)
Lemma replace_scan_first (old new post : string) :
  old <> "" ->
  forall pre,
    (forall a b, pre = a +:+ b -> b <> "" ->
                 String.prefix old (b +:+ old +:+ post) = false) ->
    replace_scan old new (pre +:+ old +:+ post) 0
    = pre +:+ new +:+ replace_scan old new post 0.
Proof.
  intros Hold. induction pre as [|c pre IH]; intros Hfirst.
  - change ("" +:+ old +:+ post) with (old +:+ post).
    change ("" +:+ new +:+ replace_scan old new post 0)
      with (new +:+ replace_scan old new post 0).
    destruct old as [|o old']; [congruence|].
    change (String o old' +:+ post) with (String o (old' +:+ post)).
    cbn [replace_scan].
    change (String o (old' +:+ post)) with (String o old' +:+ post).
    rewrite prefix_app.
    replace (String.length (String o old') - 1) with (String.length old')
      by (cbn [String.length]; lia).
    now rewrite replace_scan_skip.
  - change (String c pre +:+ old +:+ post) with (String c (pre +:+ old +:+ post)).
    cbn [replace_scan].
    change (String c (pre +:+ old +:+ post)) with (String c pre +:+ old +:+ post).
    rewrite (Hfirst "" (String c pre) eq_refl) by discriminate.
    change (String c pre +:+ new +:+ replace_scan old new post 0)
      with (String c (pre +:+ new +:+ replace_scan old new post 0)).
    f_equal. apply IH. intros a b -> Hb.
    apply (Hfirst (String c a) b eq_refl Hb).
Qed.

Lemma str_replace_absent (old new s : string) :
  str_contains old s = false -> str_replace old new s = s.
Proof.
  intros Habs. unfold str_replace.
  destruct (decide (old = "")) as [->|Hold].
  - destruct s; discriminate Habs.
  - rewrite bool_decide_eq_false_2 by exact Hold.
    now apply replace_scan_absent.
Qed.

Lemma str_replace_first (old new pre post : string) :
  old <> "" ->
  (forall a b, pre = a +:+ b -> b <> "" ->
               String.prefix old (b +:+ old +:+ post) = false) ->
  str_replace old new (pre +:+ old +:+ post)
  = pre +:+ new +:+ str_replace old new post.
Proof.
  intros Hold Hfirst. unfold str_replace.
  rewrite bool_decide_eq_false_2 by exact Hold.
  now apply replace_scan_first.
Qed.

End Replace.

(** ** Format adapters *)

Section Adapters.

Import Utils Spec.

Lemma pair_messages_filled (p : turn) :
  filled (fst p) = true -> filled (snd p) = true ->
  pair_messages p = [Message "user" (fst p); Message "assistant" (snd p)].
Proof.
  intros Hu Hb. unfold pair_messages, slot_messages. now rewrite Hu, Hb.
Qed.

Lemma index_app_mid {A : Type} (pre post : list A) (x : A) :
  index (pre ++ x :: post) (length pre) = Ok x.
Proof.
  unfold index. now rewrite list_lookup_middle.
Qed.

Lemma index_beyond {A : Type} (l : list A) (i : nat) :
  length l <= i -> index l i = Raise IndexError.
Proof.
  intros H. unfold index. now rewrite lookup_ge_None_2.
Qed.

Lemma index_within {A : Type} (l : list A) (i : nat) :
  i < length l -> exists x, index l i = Ok x.
Proof.
  intros H. unfold index. destruct (lookup_lt_is_Some_2 l i H) as [x ->]. eauto.
Qed.

(** The grouping loop undoes the flattening of fully populated pairs,
    wherever they start in the message list. *)
Lemma group_loop_flat (T : list turn) :
  well_formed T ->
  forall (pre : list message) (acc : list turn),
    group_loop (pre ++ convert_gradio_to_openai T)
               (range_step2 (length pre) (length T)) acc
    = Ok (acc ++ T).
Proof.
  induction 1 as [|p T [Hu Hb] HT IH]; intros pre acc; simpl.
  - now rewrite app_nil_r.
  - rewrite (pair_messages_filled p Hu Hb). simpl.
    rewrite index_app_mid. simpl.
    replace (pre ++ Message "user" (fst p) :: Message "assistant" (snd p)
                 :: convert_gradio_to_openai T)
      with ((pre ++ [Message "user" (fst p)])
              ++ Message "assistant" (snd p) :: convert_gradio_to_openai T)
      by now rewrite <- app_assoc.
    replace (length pre + 1) with (length (pre ++ [Message "user" (fst p)]))
      by (rewrite length_app; simpl; lia).
    rewrite index_app_mid. simpl.
    replace ((pre ++ [Message "user" (fst p)])
               ++ Message "assistant" (snd p) :: convert_gradio_to_openai T)
      with ((pre ++ [Message "user" (fst p); Message "assistant" (snd p)])
              ++ convert_gradio_to_openai T)
      by (rewrite <- !app_assoc; reflexivity).
    replace (S (S (length pre)))
      with (length (pre ++ [Message "user" (fst p); Message "assistant" (snd p)]))
      by (rewrite length_app; simpl; lia).
    rewrite IH. rewrite <- app_assoc. simpl. now destruct p.
Qed.

Lemma convert_gradio_to_openai_length (T : list turn) :
  well_formed T -> length (convert_gradio_to_openai T) = 2 * length T.
Proof.
  induction 1 as [|p T [Hu Hb] HT IH]; simpl; [reflexivity|].
  rewrite (pair_messages_filled p Hu Hb). simpl. lia.
Qed.

Lemma div2_succ_double (n : nat) : Nat.div2 (S (2 * n)) = n.
Proof.
  induction n as [|n IH]; [reflexivity|].
  replace (S (2 * S n)) with (S (S (S (2 * n)))) by lia.
  simpl Nat.div2 at 1. f_equal. exact IH.
Qed.

(** When the message list ends in the middle of a pair, the loop runs off
    its end. *)
Lemma group_loop_odd (messages : list message) :
  forall (count start : nat) (acc : list turn),
    length messages = start + 2 * count + 1 ->
    group_loop messages (range_step2 start (S count)) acc = Raise IndexError.
Proof.
  induction count as [|c IH]; intros start acc Hlen.
  - simpl. destruct (index_within messages start) as [a ->]; [lia|]. simpl.
    now rewrite index_beyond by lia.
  - change (range_step2 start (S (S c)))
      with (start :: range_step2 (S (S start)) (S c)).
    simpl group_loop.
    destruct (index_within messages start) as [a ->]; [lia|]. simpl.
    destruct (index_within messages (start + 1)) as [b ->]; [lia|]. simpl.
    apply IH. lia.
Qed.

Lemma convert_openai_to_gradio_empty :
  convert_openai_to_gradio [] = Raise IndexError.
Proof. reflexivity. Qed.

(** C1 (as stated, refuted): the empty transcript is well formed, its
    flattening is the empty message list, and converting that back raises
    [IndexError] at [messages[0]] instead of returning the transcript. *)
Lemma roundtrip_fails_on_empty_transcript :
  well_formed []
  /\ convert_openai_to_gradio (convert_gradio_to_openai []) = Raise IndexError
  /\ convert_openai_to_gradio (convert_gradio_to_openai []) <> Ok [].
Proof.
  split; [constructor|]. split; [reflexivity|]. discriminate.
Qed.

(** C1 (amended): for every non-empty transcript whose pairs all have
    both slots filled with a non-empty string, flattening with
    [convert_gradio_to_openai] and grouping back with
    [convert_openai_to_gradio] returns the transcript. *)
Theorem roundtrip_nonempty_well_formed (T : list turn) :
  T <> [] ->
  well_formed T ->
  convert_openai_to_gradio (convert_gradio_to_openai T) = Ok T.
Proof.
  intros Hne HT.
  pose proof (convert_gradio_to_openai_length _ HT) as Hlen.
  pose proof (group_loop_flat _ HT [] []) as Hloop. simpl in Hloop.
  assert (Hlead : with_leading_user (convert_gradio_to_openai T)
                  = Ok (convert_gradio_to_openai T)).
  { destruct T as [|p T']; [congruence|].
    inversion HT as [|? ? [Hu Hb] HT']; subst.
    simpl. now rewrite (pair_messages_filled p Hu Hb). }
  unfold convert_openai_to_gradio. rewrite Hlead. cbn [bind].
  unfold range_0_n_2. rewrite Hlen, div2_succ_double. exact Hloop.
Qed.

Lemma roundtrip_nonempty_well_formed_witness :
  convert_openai_to_gradio
    (convert_gradio_to_openai
       [(Some "Hello", Some "Hi, how can I help?"); (Some "Bye", Some "Goodbye")])
  = Ok [(Some "Hello", Some "Hi, how can I help?"); (Some "Bye", Some "Goodbye")].
Proof.
  apply roundtrip_nonempty_well_formed.
  - discriminate.
  - repeat constructor.
Defined.

(** C10: when the message list, after the leading user message with
    content [None] has been put in front of a first message whose role is
    not "user", has odd length, the two-at-a-time grouping reads one index
    past the end and [convert_openai_to_gradio] raises [IndexError]. *)
Theorem convert_openai_to_gradio_odd_raises (m0 : message) (rest : list message) :
  Nat.Odd (length (if decide (role m0 = "user") then m0 :: rest
                   else Message "user" None :: m0 :: rest)) ->
  convert_openai_to_gradio (m0 :: rest) = Raise IndexError.
Proof.
  intros [k Hk]. unfold convert_openai_to_gradio, with_leading_user.
  cbn [index lookup list_lookup bind].
  destruct (decide (role m0 = "user")); cbn [bind]; unfold range_0_n_2;
    rewrite Hk; replace (S (2 * k + 1)) with (S (S (2 * k))) by lia;
    cbn [Nat.div2]; rewrite Nat.div2_double;
    apply group_loop_odd; lia.
Qed.

Lemma convert_openai_to_gradio_odd_raises_witness :
  convert_openai_to_gradio
    [Message "assistant" (Some "Welcome"); Message "user" (Some "Hello")]
  = Raise IndexError.
Proof.
  apply convert_openai_to_gradio_odd_raises.
  exists 1. reflexivity.
Defined.

End Adapters.

(** ** Template engine *)

Section Templates.

Import Utils Spec.

Lemma first_part_plain (name : string) :
  rest_part name = "" -> first_part name = name.
Proof.
  induction name as [|c name IH]; [reflexivity|].
  cbn [rest_part first_part]. destruct (is_accessor c); [discriminate|].
  intros H. now rewrite IH.
Qed.

Lemma get_field_keyword (args : list arg) (kwargs : gmap string string)
    (st : an_state * nat) (name v : string) :
  keyword_name name ->
  kwargs !! name = Some v ->
  get_field args kwargs st name = Ok (v, st).
Proof.
  intros (Hne & Hint & Hplain) Hv. unfold get_field, get_first.
  rewrite (first_part_plain name Hplain), Hplain. destruct st as [state next].
  rewrite Hint. rewrite bool_decide_eq_false_2 by exact Hne.
  unfold getitem. now rewrite Hv.
Qed.

(** With every field a keyword name bound in [kwargs], [str.format]
    returns the substituted text. *)
Lemma format_items_keywords (args : list arg) (kwargs : gmap string string) :
  forall (items : list item) (st : an_state * nat),
    Forall keyword_name (omap snd items) ->
    (forall name, name ∈ omap snd items -> is_Some (kwargs !! name)) ->
    format_items items args kwargs st = Ok (substitute items kwargs).
Proof.
  induction items as [|[text [name|]] rest IH]; intros st Hkw Hdom; simpl.
  - reflexivity.
  - simpl in Hkw, Hdom. inversion Hkw as [|? ? Hname Hrest]; subst.
    destruct (Hdom name) as [v Hv]; [left|].
    rewrite (get_field_keyword _ _ _ _ _ Hname Hv). simpl.
    rewrite IH; [|exact Hrest|intros n Hn; apply Hdom; now right].
    simpl. now rewrite Hv.
  - simpl in Hkw, Hdom. rewrite IH by assumption. reflexivity.
Qed.

Lemma variables_in_dom (self : PromptTemplate) (kwargs : gmap string string) :
  dom kwargs = (list_to_set (variables self) : gset string) ->
  forall name, name ∈ omap snd (template self) -> is_Some (kwargs !! name).
Proof.
  intros Hdom name Hin. apply elem_of_dom. rewrite Hdom.
  apply elem_of_list_to_set. exact Hin.
Qed.

(** Keyword arguments whose key set is the placeholder set are accepted
    and substituted. *)
Lemma format_kwargs_ok (self : PromptTemplate) (kwargs : gmap string string) :
  kwargs <> ∅ ->
  dom kwargs = (list_to_set (variables self) : gset string) ->
  Forall keyword_name (variables self) ->
  format self [] kwargs = Ok (substitute (template self) kwargs).
Proof.
  intros Hne Hdom Hkw. unfold format.
  rewrite (bool_decide_eq_false_2 (dom kwargs <> _)) by (intros H; now apply H).
  rewrite andb_false_r. simpl.
  rewrite (bool_decide_eq_false_2 (kwargs = ∅)) by exact Hne. simpl.
  unfold str_format.
  rewrite format_items_keywords;
    [reflexivity|exact Hkw|now apply variables_in_dom].
Qed.

(** A mapping passed as the single positional argument is accepted when
    the template has exactly one placeholder. *)
Lemma format_mapping_one_placeholder (self : PromptTemplate)
    (d : gmap string string) (shown : string) :
  length (variables self) = 1 ->
  dom d = (list_to_set (variables self) : gset string) ->
  Forall keyword_name (variables self) ->
  format self [ADict d shown] ∅ = Ok (substitute (template self) d).
Proof.
  intros Hlen Hdom Hkw. unfold format.
  rewrite (bool_decide_eq_false_2 (∅ <> ∅)) by (intros H; now apply H).
  simpl. rewrite (bool_decide_eq_false_2 (1 <> _)) by (intros H; now apply H).
  rewrite (bool_decide_eq_false_2 (dom d <> _)) by (intros H; now apply H).
  unfold str_format.
  rewrite format_items_keywords;
    [reflexivity|exact Hkw|now apply variables_in_dom].
Qed.

(** C2 (the code departs from the claim): a mapping passed as the single
    positional argument whose key set equals the placeholder set is
    rejected with [ValueError] by the positional count check whenever the
    template does not have exactly one placeholder. *)
Theorem format_mapping_rejected_by_count (self : PromptTemplate)
    (d : gmap string string) (shown : string) :
  dom d = (list_to_set (variables self) : gset string) ->
  length (variables self) <> 1 ->
  format self [ADict d shown] ∅ = Raise ValueError.
Proof.
  intros _ Hlen. unfold format.
  rewrite (bool_decide_eq_false_2 (∅ <> ∅)) by (intros H; now apply H).
  simpl.
  rewrite (bool_decide_eq_true_2 (1 <> _)) by (intros H; now apply Hlen).
  reflexivity.
Qed.

(** The template ["{a} and {b}"] with the mapping [{"a": "x", "b": "y"}]. *)
Lemma format_mapping_rejected_by_count_witness :
  format {| template := [("", Some "a"); (" and ", Some "b")] |}
         [ADict (<["a" := "x"]> {["b" := "y"]}) "{'a': 'x', 'b': 'y'}"] ∅
  = Raise ValueError.
Proof.
  apply format_mapping_rejected_by_count.
  - vm_compute. reflexivity.
  - vm_compute. lia.
Defined.

(** C5: for a template with at least one placeholder, a keyword-argument
    call of [format] whose key set differs from the placeholder set (the
    call with no arguments included) raises [ValueError]. *)
Theorem format_kwargs_mismatch_raises (self : PromptTemplate)
    (kwargs : gmap string string) :
  variables self <> [] ->
  dom kwargs <> (list_to_set (variables self) : gset string) ->
  format self [] kwargs = Raise ValueError.
Proof.
  intros Hvars Hdiff. unfold format.
  destruct (decide (kwargs = ∅)) as [Hempty|Hne].
  - rewrite (bool_decide_eq_false_2 (kwargs <> ∅)) by (intros H; now apply H).
    simpl.
    rewrite (bool_decide_eq_true_2 (kwargs = ∅)) by exact Hempty.
    now rewrite (bool_decide_eq_true_2 (variables self <> [])) by exact Hvars.
  - rewrite (bool_decide_eq_true_2 (kwargs <> ∅)) by exact Hne.
    now rewrite (bool_decide_eq_true_2 (dom kwargs <> _)) by exact Hdiff.
Qed.

Lemma format_kwargs_mismatch_raises_witness :
  format {| template := [("", Some "a"); (" and ", Some "b")] |} [] {["a" := "x"]}
  = Raise ValueError
  /\ format {| template := [("", Some "a"); (" and ", Some "b")] |} [] ∅
     = Raise ValueError.
Proof.
  split; apply format_kwargs_mismatch_raises;
    try discriminate; vm_compute; intros H; discriminate H.
Defined.

End Templates.

(** ** Interview engine and logger *)

Section Interaction.

Import Utils App Spec.

Lemma last_turn_snoc (before : list turn) (p : turn) :
  last_turn (before ++ [p]) = Ok p.
Proof.
  unfold last_turn, py_index. rewrite length_app. simpl length.
  destruct (Z.leb_spec 0 (-1)) as [H|_]; [lia|].
  destruct (Z.leb_spec 0 (-1 + Z.of_nat (length before + 1))) as [_|H]; [|lia].
  replace (Z.to_nat (-1 + Z.of_nat (length before + 1))) with (length before) by lia.
  unfold index. now rewrite list_lookup_middle.
Qed.

Lemma last_turn_nil : last_turn [] = Raise IndexError.
Proof. reflexivity. Qed.

Lemma set_last_bot_snoc (before : list turn) (u b v : slot) :
  set_last_bot (before ++ [(u, b)]) v = before ++ [(u, v)].
Proof.
  unfold set_last_bot. rewrite length_app. simpl length.
  replace (length before + 1 - 1) with (length before + 0) by lia.
  now rewrite alter_app_r.
Qed.

Lemma fragments_cons (ch : chunk) (response : list chunk) :
  fragments (ch :: response)
  = match fragment ch with
    | Some t => t :: fragments response
    | None => fragments response
    end.
Proof. reflexivity. Qed.

(** The streaming loop on a transcript whose last bot slot holds [acc]. *)
Lemma stream_loop_fragments (before : list turn) (u : slot) :
  forall (response : list chunk) (acc : string) (yielded : list (list turn)),
    Forall (fun ch => chunk_choices ch <> []) response ->
    stream_loop (before ++ [(u, Some acc)]) response yielded
    = Streamed (before ++ [(u, Some (acc +:+ join (fragments response)))])
               (yielded ++ map (fun t => before ++ [(u, Some t)])
                               (running_texts acc (fragments response)))
               (Ok tt).
Proof.
  induction response as [|ch response IH]; intros acc yielded Hall.
  - simpl. now rewrite str_app_nil_r, app_nil_r.
  - inversion Hall as [|? ? Hch Hrest]; subst.
    rewrite fragments_cons. unfold fragment. cbn [stream_loop].
    destruct (chunk_choices ch) as [|[[|c delta]|] others] eqn:Hchoices;
      [congruence| | |]; cbn [index lookup list_lookup].
    + apply IH, Hrest.
    + rewrite last_turn_snoc, set_last_bot_snoc.
      rewrite IH by exact Hrest. cbn [join running_texts map].
      now rewrite str_app_assoc, <- app_assoc.
    + apply IH, Hrest.
Qed.

(** C6: for a transcript whose last pair is a pending user turn,
    [bot_message] sends exactly the system message, then the flattened
    pairs before the pending one in order, then one user message with the
    pending text, with the model arguments it was given. *)
Theorem bot_message_request (api : client) (before : list turn)
    (user_text system_message : string) (margs : model_args) :
  exists r : bot_run,
    bot_message api (before ++ [(Some user_text, None)]) system_message margs = Ok r
    /\ request_messages r
       = [Message "system" (Some system_message)]
           ++ convert_gradio_to_openai before
           ++ [Message "user" (Some user_text)]
    /\ request_args r = margs.
Proof.
  unfold bot_message, prep_messages.
  rewrite last_turn_snoc. cbn [bind fst]. rewrite removelast_last.
  eexists. split; [reflexivity|]. split; reflexivity.
Qed.

(** C9: [bot_message] first sets the pending pair's bot slot to the empty
    string and then appends each non-empty fragment in arrival order:
    the transcript shown at each yield carries the text accumulated so
    far, after the stream the bot slot is the concatenation of all
    non-empty fragments, and for a stream without content it is the empty
    string, not [None]. *)
Theorem bot_message_accumulates (api : client) (before : list turn)
    (u b : slot) (system_message : string) (margs : model_args) :
  let response :=
    api ([Message "system" (Some system_message)]
           ++ convert_gradio_to_openai before ++ [Message "user" u]) margs in
  Forall (fun ch => chunk_choices ch <> []) response ->
  exists r : bot_run,
    bot_message api (before ++ [(u, b)]) system_message margs = Ok r
    /\ outcome (run r) = Ok tt
    /\ chat_after (run r) = before ++ [(u, Some (join (fragments response)))]
    /\ yields (run r)
       = map (fun t => before ++ [(u, Some t)])
             (running_texts "" (fragments response))
    /\ (fragments response = [] -> chat_after (run r) = before ++ [(u, Some "")]).
Proof.
  intros response Hall. unfold bot_message, prep_messages.
  rewrite last_turn_snoc. cbn [bind fst]. rewrite removelast_last.
  rewrite set_last_bot_snoc. fold response.
  pose proof (stream_loop_fragments before u response "" [] Hall) as Hloop.
  eexists. split; [reflexivity|]. cbn [run].
  rewrite Hloop. cbn [outcome chat_after yields app].
  repeat split. intros ->. reflexivity.
Qed.

Lemma bot_message_accumulates_witness :
  exists r : bot_run,
    bot_message
      (fun _ _ => [ {| chunk_choices := [Some ""] |};
                    {| chunk_choices := [Some "Thank"] |};
                    {| chunk_choices := [None] |};
                    {| chunk_choices := [Some " you"] |} ])
      [(None, Some "Welcome"); (Some "Hi", None)] "be brief" default_model_args
    = Ok r
    /\ chat_after (run r) = [(None, Some "Welcome"); (Some "Hi", Some "Thank you")]
    /\ yields (run r)
       = [ [(None, Some "Welcome"); (Some "Hi", Some "Thank")];
           [(None, Some "Welcome"); (Some "Hi", Some "Thank you")] ].
Proof.
  destruct (bot_message_accumulates
              (fun _ _ => [ {| chunk_choices := [Some ""] |};
                            {| chunk_choices := [Some "Thank"] |};
                            {| chunk_choices := [None] |};
                            {| chunk_choices := [Some " you"] |} ])
              [(None, Some "Welcome")] (Some "Hi") None "be brief"
              default_model_args)
    as (r & Hr & _ & Hafter & Hyields & _).
  - repeat constructor; discriminate.
  - exists r. split; [exact Hr|]. split; [exact Hafter|exact Hyields].
Defined.

(** One call of [log_interaction] in a world where the session's path
    opens [file]. *)
Lemma log_interaction_run (before : list turn) (u b : slot) (session file : string)
    (w : world) :
  fs_open w (log_path chat_logger session) = Ok file ->
  log_interaction (before ++ [(u, b)]) session w
  = (Ok tt,
     World (<[file :=
               default [] (files w !! file)
                 ++ [LogEntry session (clock w (clock_reads w)) "user" u;
                     LogEntry session (clock w (S (clock_reads w))) "bot" b]]>
              (files w))
           (fs_open w) (clock w) (S (S (clock_reads w))) (base_log w)).
Proof.
  intros Hopen.
  unfold log_interaction, io_bind, lift, record_chat, record, io_bind,
    get_current_timestamp, append_line.
  rewrite last_turn_snoc. cbn [fst snd files fs_open clock clock_reads base_log].
  rewrite Hopen. cbn [fst snd files fs_open clock clock_reads base_log].
  rewrite Hopen.
  rewrite lookup_insert_eq. cbn [from_option id].
  rewrite insert_insert_eq, <- app_assoc. reflexivity.
Qed.

(** One call of [log_interaction] in a world where the session's path
    does not open: the error comes out of the first [record], after its
    clock reading, and nothing is written. *)
Lemma log_interaction_open_fails (before : list turn) (u b : slot)
    (session : string) (e : exn) (w : world) :
  fs_open w (log_path chat_logger session) = Raise e ->
  log_interaction (before ++ [(u, b)]) session w
  = (Raise e,
     World (files w) (fs_open w) (clock w) (S (clock_reads w)) (base_log w)).
Proof.
  intros Hopen.
  unfold log_interaction, io_bind, lift, record_chat, record, io_bind,
    get_current_timestamp, append_line.
  rewrite last_turn_snoc. cbn [fst snd files fs_open clock clock_reads base_log].
  now rewrite Hopen.
Qed.

(** C8 (as stated, refuted): the session id is free text; for the
    session ["a/b"] the log path is [logs/a/b.jsonl], and where the
    directory [logs/a] does not exist [log_interaction] raises
    [FileNotFoundError] and appends no record. *)
Lemma log_interaction_fails_without_directory :
  log_path chat_logger "a/b" = "logs/a/b.jsonl"
  /\ fst (log_interaction [(Some "Hi", Some "Hello")] "a/b" world_without_logs_a)
     = Raise FileNotFoundError
  /\ files (snd (log_interaction [(Some "Hi", Some "Hello")] "a/b"
                  world_without_logs_a))
     = files world_without_logs_a.
Proof.
  split; [vm_compute; reflexivity|].
  pose proof (log_interaction_open_fails [] (Some "Hi") (Some "Hello") "a/b"
                FileNotFoundError world_without_logs_a) as Hrun.
  cbn [app] in Hrun. rewrite Hrun by (vm_compute; reflexivity).
  split; reflexivity.
Qed.

(** C8 (amended): whenever the session's log path opens, [log_interaction]
    appends exactly two records for the last pair to the file it opens,
    the user record and then the bot record, each with the session id and
    a timestamp; what the file held before stays in front, unchanged, and
    no other file changes.  Logging two consecutive turns U1,B1 and U2,B2
    therefore leaves exactly these four records, in this order, after the
    earlier content (and nothing else when the file was new). *)
Theorem log_interaction_appends (before : list turn) (u1 b1 u2 b2 : slot)
    (session file : string) (w : world) :
  fs_open w (log_path chat_logger session) = Ok file ->
  let old := default [] (files w !! file) in
  let t := fun n => clock w (n + clock_reads w) in
  exists w1 w2 : world,
    log_interaction (after_turn1 before u1 b1) session w = (Ok tt, w1)
    /\ files w1 !! file
       = Some (old ++ [LogEntry session (t 0) "user" u1;
                       LogEntry session (t 1) "bot" b1])
    /\ (forall f, f <> file -> files w1 !! f = files w !! f)
    /\ log_interaction (after_turn2 before u1 b1 u2 b2) session w1 = (Ok tt, w2)
    /\ files w2 !! file
       = Some (old ++ [LogEntry session (t 0) "user" u1;
                       LogEntry session (t 1) "bot" b1;
                       LogEntry session (t 2) "user" u2;
                       LogEntry session (t 3) "bot" b2])
    /\ (forall f, f <> file -> files w2 !! f = files w !! f).
Proof.
  intros Hopen old t. unfold after_turn2, after_turn1.
  eexists. eexists.
  split; [apply (log_interaction_run _ _ _ _ file); exact Hopen|].
  split; [cbn [files]; now rewrite lookup_insert_eq|].
  split; [intros f Hf; cbn [files]; now rewrite lookup_insert_ne|].
  split; [apply (log_interaction_run _ _ _ _ file); exact Hopen|].
  cbn [files clock clock_reads]. split.
  - rewrite !lookup_insert_eq. cbn [from_option id].
    now rewrite <- app_assoc.
  - intros f Hf. now rewrite !lookup_insert_ne.
Qed.

Lemma log_interaction_appends_witness :
  exists w1 w2 : world,
    log_interaction [(Some "U1", Some "B1")] "s1" quiet_world = (Ok tt, w1)
    /\ log_interaction [(Some "U1", Some "B1"); (Some "U2", Some "B2")] "s1" w1
       = (Ok tt, w2)
    /\ files w2 !! "logs/s1.jsonl"
       = Some [LogEntry "s1" "2024-04-07T10:00:00" "user" (Some "U1");
               LogEntry "s1" "2024-04-07T10:00:00" "bot" (Some "B1");
               LogEntry "s1" "2024-04-07T10:00:00" "user" (Some "U2");
               LogEntry "s1" "2024-04-07T10:00:00" "bot" (Some "B2")].
Proof.
  destruct (log_interaction_appends [] (Some "U1") (Some "B1") (Some "U2")
              (Some "B2") "s1" "logs/s1.jsonl" quiet_world)
    as (w1 & w2 & H1 & _ & _ & H2 & Hfile & _).
  - vm_compute. reflexivity.
  - exists w1, w2. split; [exact H1|]. split; [exact H2|exact Hfile].
Defined.

(** The end check on a transcript whose last bot slot holds a string. *)
Lemma interview_end_check_run (before : list turn) (u : slot) (text : string)
    (limit : Z) (end_of_interview : string) :
  let chat := before ++ [(u, Some text)] in
  let hit := str_contains end_of_interview text in
  let flag := hit || bool_decide (limit <= Z.of_nat (length chat))%Z in
  exists button input submit,
    interview_end_check chat limit end_of_interview
    = Ok (if hit then before ++ [(u, Some (str_replace end_of_interview "" text))]
          else chat,
          button, input, submit)
    /\ btn_visible button = flag
    /\ tb_visible input = negb flag
    /\ btn_visible submit = negb flag.
Proof.
  intros chat hit flag. subst chat flag. unfold interview_end_check.
  rewrite last_turn_snoc. cbn [bind snd]. fold hit.
  rewrite set_last_bot_snoc.
  eexists. eexists. eexists. split; [reflexivity|].
  cbn [btn_visible tb_visible]. destruct hit; repeat split.
Qed.

(** C3: when the last bot text contains the sentinel, the end check sets
    the ended flag (exit button shown, input box and submit button hidden)
    and returns the transcript with the sentinel replaced by nothing in
    the last bot text; the other pairs and the user text are untouched. *)
Theorem interview_end_check_sentinel (before : list turn) (u : slot)
    (text : string) (limit : Z) :
  str_contains default_end_of_interview text = true ->
  exists button input submit,
    interview_end_check (before ++ [(u, Some text)]) limit default_end_of_interview
    = Ok (before ++ [(u, Some (str_replace default_end_of_interview "" text))],
          button, input, submit)
    /\ btn_visible button = true
    /\ tb_visible input = false
    /\ btn_visible submit = false.
Proof.
  intros Hhit.
  destruct (interview_end_check_run before u text limit default_end_of_interview)
    as (button & input & submit & Hrun & Hb & Hi & Hs).
  rewrite Hhit in Hrun, Hb, Hi, Hs.
  exists button, input, submit. repeat split; assumption.
Qed.

Lemma interview_end_check_sentinel_witness :
  exists button input submit,
    interview_end_check
      [(Some "No, that is all.", Some "Thanks, that's everything.<end_of_survey>")]
      default_limit default_end_of_interview
    = Ok ([(Some "No, that is all.", Some "Thanks, that's everything.")],
          button, input, submit)
    /\ btn_visible button = true
    /\ tb_visible input = false
    /\ btn_visible submit = false.
Proof.
  apply (interview_end_check_sentinel [] (Some "No, that is all.")
           "Thanks, that's everything.<end_of_survey>" default_limit).
  vm_compute. reflexivity.
Defined.

(** C4 (the code departs from the claim): on a transcript that has
    reached the limit of 20 pairs and whose last bot slot still holds
    [None], the end check has set its flag for the length and then
    raises [TypeError] at the sentinel test, so it returns nothing and
    the exit button is not shown. *)
Theorem interview_end_check_pending_raises (before : list turn) (u : slot) :
  20 <= length (before ++ [(u, None)]) ->
  interview_end_check (before ++ [(u, None)])
                      default_limit default_end_of_interview
  = Raise TypeError.
Proof.
  intros _. unfold interview_end_check.
  rewrite last_turn_snoc. reflexivity.
Qed.

Lemma interview_end_check_pending_raises_witness :
  length twenty_pairs_last_pending = 20
  /\ interview_end_check twenty_pairs_last_pending
                         default_limit default_end_of_interview
     = Raise TypeError.
Proof.
  split; [reflexivity|].
  apply (interview_end_check_pending_raises
           (repeat (Some "question", Some "answer") 19) (Some "question")).
  vm_compute. apply le_n.
Defined.

(** The end check with the default limit of 20 on a transcript whose
    last bot slot holds a string: it returns, and the ended flag is set
    exactly when the transcript has 20 or more pairs or the last bot text
    contains the sentinel.  So 20 or more pairs end the interview, and 19
    or fewer pairs without the sentinel leave it active (input box and
    submit button visible, exit button hidden, transcript unchanged). *)
Theorem interview_end_check_limit (before : list turn) (u : slot) (text : string) :
  let chat := before ++ [(u, Some text)] in
  exists shown button input submit,
    interview_end_check chat default_limit default_end_of_interview
    = Ok (shown, button, input, submit)
    /\ (btn_visible button = true
        <-> 20 <= length chat \/ str_contains default_end_of_interview text = true)
    /\ tb_visible input = negb (btn_visible button)
    /\ btn_visible submit = negb (btn_visible button)
    /\ (str_contains default_end_of_interview text = false -> shown = chat).
Proof.
  intros chat.
  destruct (interview_end_check_run before u text default_limit
              default_end_of_interview)
    as (button & input & submit & Hrun & Hb & Hi & Hs).
  fold chat in Hrun, Hb, Hi, Hs.
  eexists. exists button, input, submit. split; [exact Hrun|].
  rewrite Hi, Hs, Hb. repeat split; try reflexivity.
  - intros H. apply orb_true_iff in H as [H|H]; [now right|left].
    apply bool_decide_eq_true_1 in H. unfold default_limit in H. lia.
  - intros [H| ->]; [|reflexivity]. apply orb_true_iff. right.
    apply bool_decide_eq_true_2. unfold default_limit. lia.
  - intros ->. reflexivity.
Qed.

Lemma interview_end_check_limit_witness :
  exists shown button input submit,
    interview_end_check [(None, Some "Welcome"); (Some "Hi", Some "Tell me more.")]
      default_limit default_end_of_interview
    = Ok (shown, button, input, submit)
    /\ btn_visible button = false
    /\ tb_visible input = true
    /\ btn_visible submit = true
    /\ shown = [(None, Some "Welcome"); (Some "Hi", Some "Tell me more.")].
Proof.
  destruct (interview_end_check_limit [(None, Some "Welcome")] (Some "Hi")
              "Tell me more.")
    as (shown & button & input & submit & Hrun & Hflag & Hi & Hs & Hsame).
  exists shown, button, input, submit.
  assert (Hb : btn_visible button = false).
  { destruct (btn_visible button); [|reflexivity].
    destruct Hflag as [Hflag _]. destruct (Hflag eq_refl) as [H|H].
    - simpl in H. lia.
    - vm_compute in H. discriminate H. }
  rewrite Hb in Hi, Hs.
  repeat split; try assumption. apply Hsame. vm_compute. reflexivity.
Defined.

End Interaction.

(** ** Session initializer *)

Section Initialization.

Import Utils App Spec.

Lemma py_index_invalid {A : Type} (l : list A) (i : Z) :
  ~ index_valid (length l) i -> py_index l i = Raise IndexError.
Proof.
  unfold index_valid, py_index. intros Hbad.
  destruct (Z.leb_spec 0 i) as [Hpos|Hneg].
  - apply index_beyond. lia.
  - destruct (Z.leb_spec 0 (i + Z.of_nat (length l))) as [Hin|Hout];
      [lia|reflexivity].
Qed.

Lemma py_index_valid {A : Type} (l : list A) (i : Z) :
  index_valid (length l) i ->
  exists x, l !! index_position (length l) i = Some x /\ py_index l i = Ok x.
Proof.
  unfold index_valid, py_index, index_position. intros Hok.
  destruct (Z.leb_spec 0 i) as [Hpos|Hneg].
  - destruct (lookup_lt_is_Some_2 l (Z.to_nat i)) as [x Hx]; [lia|].
    exists x. unfold index. now rewrite Hx.
  - destruct (Z.leb_spec 0 (i + Z.of_nat (length l))) as [Hin|Hout]; [|lia].
    destruct (lookup_lt_is_Some_2 l (Z.to_nat (i + Z.of_nat (length l))))
      as [x Hx]; [lia|].
    exists x. unfold index. now rewrite Hx.
Qed.

(** Variables drawn from a set of keyword names are keyword names. *)
Lemma variables_keyword (self : PromptTemplate) (names : gset string) :
  (list_to_set (variables self) : gset string) = names ->
  (forall name, name ∈ names -> keyword_name name) ->
  Forall keyword_name (variables self).
Proof.
  intros Hset Hnames. apply Forall_forall. intros name Hin.
  apply Hnames. rewrite <- Hset. now apply elem_of_list_to_set.
Qed.

(** C7: once the question file is found and [response] is an integer
    literal, session initialization indexes the choice list with that
    integer: an index outside the range Python accepts makes it raise
    [IndexError]; an index inside selects the choice at that position,
    and with the two templates in place the call returns the identifiers,
    the wording, and the initial and system messages with the wording and
    the selected choice substituted. *)
Theorem initialize_interview_selects_choice (a : assets)
    (request_params : gmap string string) (w : world)
    (file_name : string) (qd : question_data) (i : Z) :
  question_mapping a !! get_default request_params "questionid" "0" = Some file_name ->
  question_files a !! ("./assets/questions/" +:+ file_name) = Some qd ->
  py_int (get_default request_params "response" "0") = Ok i ->
  (~ index_valid (length (choices qd)) i ->
   fst (initialize_interview a request_params w) = Raise IndexError)
  /\ (index_valid (length (choices qd)) i ->
      exists response_text,
        choices qd !! index_position (length (choices qd)) i = Some response_text
        /\ forall initial_template system_template,
             template_files a !! "assets/initial_message.txt" = Some initial_template ->
             template_files a !! "assets/system_message.txt" = Some system_template ->
             (list_to_set (variables initial_template) : gset string)
               = {[ "surveyQuestion" ]} ->
             (list_to_set (variables system_template) : gset string)
               = {[ "surveyQuestion"; "responseVal" ]} ->
             fst (initialize_interview a request_params w)
             = Ok (get_default request_params "user" "testUser",
                   get_default request_params "session" "testSession",
                   question qd,
                   substitute (template initial_template)
                     {[ "surveyQuestion" := question qd ]},
                   substitute (template system_template)
                     (<[ "surveyQuestion" := question qd ]>
                        {[ "responseVal" := response_text ]}))).
Proof.
  intros Hmap Hfile Hint.
  unfold initialize_interview, io_bind, lift, info, ret, getitem, read_file.
  cbn [fst snd]. rewrite Hmap, Hfile, Hint. split.
  - intros Hbad. now rewrite (py_index_invalid _ _ Hbad).
  - intros Hok. destruct (py_index_valid _ _ Hok) as (text & Hpos & Hsel).
    exists text. split; [exact Hpos|].
    intros ti ts Hti Hts Hvi Hvs. rewrite Hsel.
    unfold from_file, read_file. rewrite Hti, Hts.
    rewrite format_kwargs_ok.
    + rewrite format_kwargs_ok; [reflexivity| | |].
      * apply insert_non_empty.
      * rewrite Hvs, dom_insert_L, dom_singleton_L. reflexivity.
      * apply (variables_keyword _ _ Hvs). intros name Hname.
        apply elem_of_union in Hname as [Hname|Hname];
          apply elem_of_singleton in Hname; subst name;
          (split; [discriminate|split; reflexivity]).
    + apply insert_non_empty.
    + now rewrite Hvi, dom_singleton_L.
    + apply (variables_keyword _ _ Hvi). intros name Hname.
      apply elem_of_singleton in Hname. subst name.
      split; [discriminate|split; reflexivity].
Qed.

Lemma initialize_interview_selects_choice_witness :
  fst (initialize_interview example_assets {[ "response" := "2" ]} quiet_world)
  = Ok ("testUser", "testSession", "How satisfied were you?",
        "Let us talk about: How satisfied were you?",
        "The participant answered High to the question: How satisfied were you?")
  /\ fst (initialize_interview example_assets {[ "response" := "3" ]} quiet_world)
     = Raise IndexError.
Proof.
  split.
  - destruct (initialize_interview_selects_choice example_assets
                {[ "response" := "2" ]} quiet_world "q0.json"
                {| question := "How satisfied were you?";
                   choices := ["Low"; "Medium"; "High"] |} 2)
      as [_ Hin]; [reflexivity..|].
    destruct Hin as (text & Hpos & Hrun); [vm_compute; split; congruence|].
    vm_compute in Hpos. injection Hpos as <-.
    rewrite (Hrun {| template := [("Let us talk about: ", Some "surveyQuestion")] |}
                  {| template := [("The participant answered ", Some "responseVal");
                                   (" to the question: ", Some "surveyQuestion")] |});
      [|reflexivity|reflexivity|vm_compute; reflexivity|vm_compute; reflexivity].
    vm_compute. reflexivity.
  - destruct (initialize_interview_selects_choice example_assets
                {[ "response" := "3" ]} quiet_world "q0.json"
                {| question := "How satisfied were you?";
                   choices := ["Low"; "Medium"; "High"] |} 3)
      as [Hout _]; [reflexivity..|].
    apply Hout. vm_compute. intros [_ H]. discriminate H.
Defined.

End Initialization.

(** ** More on the format adapters *)

Section AdaptersMore.

Import Utils App Spec.

Lemma slot_messages_shape (r : string) (s : slot) :
  Forall (fun m => role m = r /\ filled (content m) = true) (slot_messages r s)
  /\ length (slot_messages r s) <= 1.
Proof.
  unfold slot_messages. destruct (filled s) eqn:Hs; simpl.
  - split; [|lia]. repeat constructor. exact Hs.
  - split; [constructor|lia].
Qed.

(** X1: the flattening emits at most two messages per pair, and every
    message it emits has role "user" or "assistant" and a non-empty
    string as content: empty and absent slots leave no message. *)
Theorem convert_gradio_to_openai_messages (chat_history : list turn) :
  length (convert_gradio_to_openai chat_history) <= 2 * length chat_history
  /\ Forall (fun m => (role m = "user" \/ role m = "assistant")
                      /\ filled (content m) = true)
            (convert_gradio_to_openai chat_history).
Proof.
  induction chat_history as [|[u b] rest [IHlen IHall]]; simpl.
  - split; [lia|constructor].
  - unfold pair_messages. simpl fst. simpl snd.
    destruct (slot_messages_shape "user" u) as [Hu Hulen].
    destruct (slot_messages_shape "assistant" b) as [Hb Hblen].
    split.
    + rewrite !length_app. lia.
    + apply Forall_app. split; [apply Forall_app; split|exact IHall].
      * eapply Forall_impl; [exact Hu|]. intros m [Hr Hf]. auto.
      * eapply Forall_impl; [exact Hb|]. intros m [Hr Hf]. auto.
Qed.

(** X2: flattening a transcript made of two parts gives the flattening of
    the first part followed by that of the second, so the request history
    only grows at its end as turns are appended. *)
Theorem convert_gradio_to_openai_app (earlier later : list turn) :
  convert_gradio_to_openai (earlier ++ later)
  = convert_gradio_to_openai earlier ++ convert_gradio_to_openai later.
Proof.
  induction earlier as [|p earlier IH]; simpl; [reflexivity|].
  now rewrite IH, app_assoc.
Qed.

(** The grouping loop on an even number of messages, wherever they start. *)
Lemma group_loop_even :
  forall (n : nat) (messages pre : list message) (acc : list turn),
    length messages = 2 * n ->
    group_loop (pre ++ messages) (range_step2 (length pre) n) acc
    = Ok (acc ++ pairs_of messages).
Proof.
  induction n as [|n IH]; intros messages pre acc Hlen.
  - destruct messages; [|discriminate Hlen]. simpl. now rewrite app_nil_r.
  - destruct messages as [|a [|b rest]]; [discriminate Hlen|simpl in Hlen; lia|].
    cbn [range_step2 group_loop pairs_of].
    rewrite index_app_mid. cbn [bind].
    replace (pre ++ a :: b :: rest) with ((pre ++ [a]) ++ b :: rest)
      by now rewrite <- app_assoc.
    replace (length pre + 1) with (length (pre ++ [a]))
      by (rewrite length_app; simpl; lia).
    rewrite index_app_mid. cbn [bind].
    replace ((pre ++ [a]) ++ b :: rest) with ((pre ++ [a; b]) ++ rest)
      by (rewrite <- !app_assoc; reflexivity).
    replace (S (S (length pre))) with (length (pre ++ [a; b]))
      by (rewrite length_app; simpl; lia).
    rewrite IH by (simpl in Hlen; lia).
    now rewrite <- app_assoc.
Qed.

Lemma pairs_of_contents :
  forall (n : nat) (messages : list message),
    length messages = 2 * n ->
    length (pairs_of messages) = n
    /\ flat_map (fun p : turn => [fst p; snd p]) (pairs_of messages)
       = map content messages.
Proof.
  induction n as [|n IH]; intros messages Hlen.
  - destruct messages; [|discriminate Hlen]. now split.
  - destruct messages as [|a [|b rest]]; [discriminate Hlen|simpl in Hlen; lia|].
    destruct (IH rest) as [IHlen IHflat]; [simpl in Hlen; lia|].
    cbn [pairs_of length flat_map map fst snd app]. rewrite IHlen, IHflat.
    now split.
Qed.

Lemma convert_openai_to_gradio_prepared (m0 : message) (rest : list message) :
  convert_openai_to_gradio (m0 :: rest)
  = group_loop (prepared m0 rest) (range_0_n_2 (length (prepared m0 rest))) [].
Proof.
  unfold convert_openai_to_gradio, with_leading_user, prepared.
  cbn [index lookup list_lookup bind].
  now destruct (decide (role m0 = "user")).
Qed.

Lemma convert_openai_to_gradio_even (m0 : message) (rest : list message) (n : nat) :
  length (prepared m0 rest) = 2 * n ->
  convert_openai_to_gradio (m0 :: rest) = Ok (pairs_of (prepared m0 rest)).
Proof.
  intros Hlen. rewrite convert_openai_to_gradio_prepared.
  unfold range_0_n_2. rewrite Hlen, div2_succ_double.
  exact (group_loop_even n (prepared m0 rest) [] [] Hlen).
Qed.

(** X3: when the message list, after the conditional leading user
    message, has even length, [convert_openai_to_gradio] returns a
    transcript of half that many pairs whose slots, read pair by pair,
    are exactly the contents of those messages in order: nothing is
    dropped, duplicated or reordered. *)
Theorem convert_openai_to_gradio_even_returns (m0 : message) (rest : list message) :
  Nat.Even (length (prepared m0 rest)) ->
  exists T : list turn,
    convert_openai_to_gradio (m0 :: rest) = Ok T
    /\ 2 * length T = length (prepared m0 rest)
    /\ flat_map (fun p : turn => [fst p; snd p]) T
       = map content (prepared m0 rest).
Proof.
  intros [n Hn]. exists (pairs_of (prepared m0 rest)).
  destruct (pairs_of_contents n _ Hn) as [Hlen Hflat].
  split; [exact (convert_openai_to_gradio_even m0 rest n Hn)|].
  split; [lia|exact Hflat].
Qed.

Lemma convert_openai_to_gradio_even_returns_witness :
  exists T : list turn,
    convert_openai_to_gradio
      [Message "assistant" (Some "Welcome"); Message "user" (Some "Hello");
       Message "assistant" (Some "Go on")]
    = Ok T
    /\ flat_map (fun p : turn => [fst p; snd p]) T
       = [None; Some "Welcome"; Some "Hello"; Some "Go on"].
Proof.
  destruct (convert_openai_to_gradio_even_returns
              (Message "assistant" (Some "Welcome"))
              [Message "user" (Some "Hello"); Message "assistant" (Some "Go on")])
    as (T & HT & _ & Hflat).
  - exists 2. reflexivity.
  - exists T. split; [exact HT|exact Hflat].
Defined.

Lemma pairs_of_flat (T : list turn) :
  well_formed T -> pairs_of (convert_gradio_to_openai T) = T.
Proof.
  induction 1 as [|[u b] T [Hu Hb] HT IH]; [reflexivity|].
  cbn [convert_gradio_to_openai].
  rewrite (pair_messages_filled (u, b) Hu Hb).
  cbn [app pairs_of content fst snd]. now rewrite IH.
Qed.

Lemma flat_opening (opening : string) (T : list turn) :
  opening <> "" ->
  convert_gradio_to_openai ((None, Some opening) :: T)
  = Message "assistant" (Some opening) :: convert_gradio_to_openai T.
Proof.
  intros Hopen. cbn [convert_gradio_to_openai]. unfold pair_messages, slot_messages.
  cbn [fst snd filled]. destruct opening; [congruence|reflexivity].
Qed.

Lemma regroup_behind_assistant (text : slot) (T : list turn) :
  well_formed T ->
  convert_openai_to_gradio (Message "assistant" text :: convert_gradio_to_openai T)
  = Ok ((None, text) :: T).
Proof.
  intros HT.
  rewrite (convert_openai_to_gradio_even _ _ (S (length T))).
  - unfold prepared. cbn [role]. destruct (decide ("assistant" = "user"));
      [discriminate|].
    cbn [pairs_of content]. now rewrite pairs_of_flat.
  - unfold prepared. cbn [role]. destruct (decide ("assistant" = "user"));
      [discriminate|].
    cbn [length]. rewrite (convert_gradio_to_openai_length T HT). lia.
Qed.

(** X4: the transcripts the interface starts from, a first pair with no
    user text and the opening bot message followed by fully populated
    pairs, survive the round trip: flattening drops the absent user slot
    and grouping puts [None] back in its place. *)
Theorem roundtrip_opening_message (opening : string) (T : list turn) :
  opening <> "" ->
  well_formed T ->
  convert_openai_to_gradio (convert_gradio_to_openai ((None, Some opening) :: T))
  = Ok ((None, Some opening) :: T).
Proof.
  intros Hopen HT. rewrite (flat_opening opening T Hopen).
  exact (regroup_behind_assistant (Some opening) T HT).
Qed.

Lemma roundtrip_opening_message_witness :
  convert_openai_to_gradio
    (convert_gradio_to_openai
       [(None, Some "Welcome"); (Some "Hello", Some "Go on")])
  = Ok [(None, Some "Welcome"); (Some "Hello", Some "Go on")].
Proof.
  apply roundtrip_opening_message.
  - discriminate.
  - repeat constructor.
Defined.

Lemma alternates_pairs :
  forall (n : nat) (messages : list message),
    length messages <= n ->
    alternates messages = true ->
    Forall (fun m => filled (content m) = true) messages ->
    (exists k, length messages = 2 * k)
    /\ convert_gradio_to_openai (pairs_of messages) = messages.
Proof.
  induction n as [|n IH]; intros messages Hlen Halt Hfilled.
  - destruct messages; [|simpl in Hlen; lia]. split; [now exists 0|reflexivity].
  - destruct messages as [|u [|a rest]];
      [split; [now exists 0|reflexivity]|discriminate Halt|].
    cbn [alternates] in Halt.
    apply andb_true_iff in Halt as [Hroles Hrest].
    apply andb_true_iff in Hroles as [Hu Ha].
    apply bool_decide_eq_true_1 in Hu, Ha.
    inversion Hfilled as [|? ? Hfu Hf']; subst.
    inversion Hf' as [|? ? Hfa Hfrest]; subst.
    destruct (IH rest) as [[k Hk] Hconv];
      [simpl in Hlen; lia|exact Hrest|exact Hfrest|].
    split; [exists (S k); simpl; lia|].
    cbn [pairs_of convert_gradio_to_openai].
    rewrite (pair_messages_filled (content u, content a) Hfu Hfa).
    cbn [fst snd app]. rewrite Hconv.
    destruct u as [ru cu], a as [ra ca]. simpl in Hu, Ha. now subst.
Qed.

(** X5: a message list that, behind the conditional leading user
    message, alternates user and assistant and whose own contents are
    all non-empty strings is grouped into a transcript whose flattening
    is the message list again. *)
Theorem roundtrip_messages (m0 : message) (rest : list message) :
  alternates (prepared m0 rest) = true ->
  Forall (fun m => filled (content m) = true) (m0 :: rest) ->
  exists T : list turn,
    convert_openai_to_gradio (m0 :: rest) = Ok T
    /\ convert_gradio_to_openai T = m0 :: rest.
Proof.
  intros Halt Hfilled. exists (pairs_of (prepared m0 rest)).
  unfold prepared in *. destruct (decide (role m0 = "user")) as [Hu|Hu].
  - destruct (alternates_pairs (length (m0 :: rest)) (m0 :: rest))
      as [[k Hk] Hconv]; [lia|exact Halt|exact Hfilled|].
    split; [|exact Hconv].
    rewrite (convert_openai_to_gradio_even m0 rest k);
      unfold prepared; destruct (decide (role m0 = "user")); try tauto.
  - cbn [alternates] in Halt.
    apply andb_true_iff in Halt as [Hroles Hrest].
    apply andb_true_iff in Hroles as [_ Ha].
    apply bool_decide_eq_true_1 in Ha.
    inversion Hfilled as [|? ? Hf0 Hfrest]; subst.
    destruct (alternates_pairs (length rest) rest) as [[k Hk] Hconv];
      [lia|exact Hrest|exact Hfrest|].
    split.
    + rewrite (convert_openai_to_gradio_even m0 rest (S k));
        unfold prepared; destruct (decide (role m0 = "user")); try tauto.
      cbn [length]. lia.
    + cbn [pairs_of convert_gradio_to_openai content].
      unfold pair_messages, slot_messages. cbn [fst snd filled].
      rewrite Hf0. cbn [app]. rewrite Hconv.
      destruct m0 as [r0 c0]. simpl in Ha. now subst.
Qed.

Lemma roundtrip_messages_witness :
  exists T : list turn,
    convert_openai_to_gradio
      [Message "assistant" (Some "Welcome"); Message "user" (Some "Hello");
       Message "assistant" (Some "Go on")]
    = Ok T
    /\ convert_gradio_to_openai T
       = [Message "assistant" (Some "Welcome"); Message "user" (Some "Hello");
          Message "assistant" (Some "Go on")].
Proof.
  apply roundtrip_messages.
  - vm_compute. reflexivity.
  - repeat constructor.
Defined.

End AdaptersMore.

(** ** More on the template engine *)

Section TemplatesMore.

Import Utils App Spec.













Lemma format_items_missing_key (args : list arg) :
  forall (items : list item) (st : an_state * nat),
    Forall keyword_name (omap snd items) ->
    omap snd items <> [] ->
    format_items items args ∅ st = Raise KeyError.
Proof.
  induction items as [|[text [name|]] rest IH]; intros st Hkw Hne; simpl.
  - simpl in Hne. congruence.
  - simpl in Hkw. inversion Hkw as [|? ? (Hname & Hint & Hplain) _]; subst.
    unfold get_field, get_first. rewrite (first_part_plain name Hplain).
    destruct st as [state next]. rewrite Hint.
    rewrite bool_decide_eq_false_2 by exact Hname.
    unfold getitem. now rewrite lookup_empty.
  - simpl in Hkw, Hne. now rewrite IH.
Qed.

(** X9: strings passed positionally never fill named placeholders: on a
    template whose placeholders are all keyword names, [format] called
    with one or more strings and no keyword arguments raises
    [ValueError], whether or not the count matches. *)
Theorem format_positional_named_raises (self : PromptTemplate)
    (texts : list string) :
  Forall keyword_name (variables self) ->
  texts <> [] ->
  format self (map AStr texts) ∅ = Raise ValueError.
Proof.
  intros Hkw Hne. unfold format.
  rewrite (bool_decide_eq_false_2 (∅ <> ∅)) by (intros H; now apply H).
  cbn [andb].
  destruct texts as [|t texts']; [congruence|]. cbn [map].
  rewrite (bool_decide_eq_true_2 (AStr t :: _ <> [])) by discriminate.
  cbn [andb].
  destruct (bool_decide_reflect
              (length (AStr t :: map AStr texts') <> length (variables self)))
    as [Hcount|Hcount]; [reflexivity|].
  rewrite (bool_decide_eq_false_2 (AStr t :: _ = [])) by discriminate.
  cbn [andb]. unfold str_format.
  rewrite format_items_missing_key; [now destruct texts'|exact Hkw|].
  intros Hnil. apply Hcount. unfold variables, parse_template.
  rewrite Hnil. discriminate.
Qed.

Lemma format_positional_named_raises_witness :
  format {| template := [("Dear ", Some "name"); (", welcome.", None)] |}
         (map AStr ["Ada"]) ∅
  = Raise ValueError.
Proof.
  apply format_positional_named_raises.
  - repeat constructor; discriminate.
  - discriminate.
Defined.

End TemplatesMore.

(** ** More on the interview engine and the logger *)

Section InteractionMore.

Import Utils App Spec.

Lemma str_length_app (s t : string) :
  String.length (s +:+ t) = String.length s + String.length t.
Proof.
  induction s as [|c s IH]; [reflexivity|].
  change (S (String.length (s +:+ t)) = S (String.length s + String.length t)).
  now rewrite IH.
Qed.

Lemma str_app_inj_r (t : string) :
  forall s s', s +:+ t = s' +:+ t -> s = s'.
Proof.
  induction s as [|c s IH]; intros [|c' s'] H.
  - reflexivity.
  - change (t = String c' (s' +:+ t)) in H.
    apply (f_equal String.length) in H. cbn [String.length] in H.
    rewrite str_length_app in H. lia.
  - change (String c (s +:+ t) = t) in H.
    apply (f_equal String.length) in H. cbn [String.length] in H.
    rewrite str_length_app in H. lia.
  - change (String c (s +:+ t) = String c' (s' +:+ t)) in H.
    injection H as -> H. f_equal. now apply IH.
Qed.

(** X11: on the empty transcript every per-turn handler stops at
    [chat_history[-1]] with [IndexError]: [bot_message] before any
    request is built, [log_interaction] before anything is written, and
    [interview_end_check] whatever the limit, even one already reached. *)
Theorem handlers_on_empty_transcript (api : client) (system_message session : string)
    (margs : model_args) (w : world) (limit : Z) (end_of_interview : string) :
  bot_message api [] system_message margs = Raise IndexError
  /\ log_interaction [] session w = (Raise IndexError, w)
  /\ interview_end_check [] limit end_of_interview = Raise IndexError.
Proof.
  split; [reflexivity|]. split; [reflexivity|].
  unfold interview_end_check. now rewrite last_turn_nil.
Qed.

(** The streaming loop over a run of chunks that all carry a choice,
    followed by whatever comes next. *)
Lemma stream_loop_app (before : list turn) (u : slot) (rest : list chunk) :
  forall (consumed : list chunk) (acc : string) (yielded : list (list turn)),
    Forall (fun ch => chunk_choices ch <> []) consumed ->
    stream_loop (before ++ [(u, Some acc)]) (consumed ++ rest) yielded
    = stream_loop (before ++ [(u, Some (acc +:+ join (fragments consumed)))]) rest
        (yielded ++ map (fun t => before ++ [(u, Some t)])
                        (running_texts acc (fragments consumed))).
Proof.
  induction consumed as [|ch consumed IH]; intros acc yielded Hall.
  - simpl. now rewrite str_app_nil_r, app_nil_r.
  - inversion Hall as [|? ? Hch Hrest]; subst.
    rewrite fragments_cons. unfold fragment.
    change ((ch :: consumed) ++ rest) with (ch :: (consumed ++ rest)).
    cbn [stream_loop].
    destruct (chunk_choices ch) as [|[[|c delta]|] others] eqn:Hchoices;
      [congruence| | |]; cbn [index lookup list_lookup].
    + apply IH, Hrest.
    + rewrite last_turn_snoc, set_last_bot_snoc.
      rewrite IH by exact Hrest. cbn [join running_texts map].
      now rewrite str_app_assoc, <- app_assoc.
    + apply IH, Hrest.
Qed.

(** X12: when a chunk arrives without any choice, the run stops with
    [IndexError]; the bot slot keeps the text of the fragments received
    before it, and the transcripts shown so far are those of these
    fragments. *)
Theorem bot_message_chunk_without_choice (api : client) (before : list turn)
    (u b : slot) (system_message : string) (margs : model_args)
    (consumed rest : list chunk) (bad : chunk) :
  api ([Message "system" (Some system_message)]
         ++ convert_gradio_to_openai before ++ [Message "user" u]) margs
  = consumed ++ bad :: rest ->
  Forall (fun ch => chunk_choices ch <> []) consumed ->
  chunk_choices bad = [] ->
  exists r : bot_run,
    bot_message api (before ++ [(u, b)]) system_message margs = Ok r
    /\ outcome (run r) = Raise IndexError
    /\ chat_after (run r) = before ++ [(u, Some (join (fragments consumed)))]
    /\ yields (run r)
       = map (fun t => before ++ [(u, Some t)])
             (running_texts "" (fragments consumed)).
Proof.
  intros Hresp Hall Hbad. unfold bot_message, prep_messages.
  rewrite last_turn_snoc. cbn [bind fst]. rewrite removelast_last.
  rewrite set_last_bot_snoc, Hresp.
  rewrite (stream_loop_app before u (bad :: rest) consumed "" [] Hall).
  cbn [stream_loop]. rewrite Hbad. cbn [index lookup list_lookup app].
  eexists. split; [reflexivity|]. repeat split.
Qed.

Lemma bot_message_chunk_without_choice_witness :
  exists r : bot_run,
    bot_message
      (fun _ _ => [ {| chunk_choices := [Some "Thank"] |};
                    {| chunk_choices := [] |};
                    {| chunk_choices := [Some " you"] |} ])
      [(None, Some "Welcome"); (Some "Hi", None)] "be brief" default_model_args
    = Ok r
    /\ outcome (run r) = Raise IndexError
    /\ chat_after (run r) = [(None, Some "Welcome"); (Some "Hi", Some "Thank")].
Proof.
  destruct (bot_message_chunk_without_choice
              (fun _ _ => [ {| chunk_choices := [Some "Thank"] |};
                            {| chunk_choices := [] |};
                            {| chunk_choices := [Some " you"] |} ])
              [(None, Some "Welcome")] (Some "Hi") None "be brief"
              default_model_args
              [ {| chunk_choices := [Some "Thank"] |} ]
              [ {| chunk_choices := [Some " you"] |} ]
              {| chunk_choices := [] |})
    as (r & Hr & Hout & Hafter & _).
  - reflexivity.
  - repeat constructor; discriminate.
  - reflexivity.
  - exists r. split; [exact Hr|]. split; [exact Hout|exact Hafter].
Defined.

Lemma stream_loop_shape (before : list turn) (u : slot) :
  forall (response : list chunk) (acc : string) (yielded : list (list turn)),
  exists (text : string) (shown : list (list turn)),
    chat_after (stream_loop (before ++ [(u, Some acc)]) response yielded)
    = before ++ [(u, Some text)]
    /\ yields (stream_loop (before ++ [(u, Some acc)]) response yielded)
       = yielded ++ shown
    /\ Forall (fun s => exists t, s = before ++ [(u, Some t)]) shown
    /\ (outcome (stream_loop (before ++ [(u, Some acc)]) response yielded) = Ok tt
        \/ outcome (stream_loop (before ++ [(u, Some acc)]) response yielded)
           = Raise IndexError).
Proof.
  induction response as [|ch response IH]; intros acc yielded.
  - exists acc, []. cbn [stream_loop chat_after yields outcome].
    rewrite app_nil_r. repeat split; [constructor|now left].
  - cbn [stream_loop].
    destruct (chunk_choices ch) as [|[[|c delta]|] others];
      cbn [index lookup list_lookup].
    + exists acc, []. cbn [chat_after yields outcome].
      rewrite app_nil_r. repeat split; [constructor|now right].
    + apply IH.
    + rewrite last_turn_snoc, set_last_bot_snoc.
      destruct (IH (acc +:+ String c delta)
                   (yielded ++ [before ++ [(u, Some (acc +:+ String c delta))]]))
        as (text & shown & Hafter & Hyields & Hall & Hout).
      exists text, ((before ++ [(u, Some (acc +:+ String c delta))]) :: shown).
      split; [exact Hafter|]. split; [now rewrite Hyields, <- app_assoc|].
      split; [|exact Hout]. constructor; [eauto|exact Hall].
    + apply IH.
Qed.

(** X13: whatever the service streams, a run of [bot_message] changes
    the transcript only in the bot slot of the last pair, which ends up
    holding a string; every transcript it shows on the way has the same
    earlier pairs and the same pending user text; and the run either
    completes or stops with [IndexError]. *)
Theorem bot_message_touches_last_bot_only (api : client) (before : list turn)
    (u b : slot) (system_message : string) (margs : model_args) :
  exists (r : bot_run) (text : string),
    bot_message api (before ++ [(u, b)]) system_message margs = Ok r
    /\ chat_after (run r) = before ++ [(u, Some text)]
    /\ Forall (fun s => exists t, s = before ++ [(u, Some t)]) (yields (run r))
    /\ (outcome (run r) = Ok tt \/ outcome (run r) = Raise IndexError).
Proof.
  unfold bot_message, prep_messages.
  rewrite last_turn_snoc. cbn [bind fst]. rewrite removelast_last.
  rewrite set_last_bot_snoc.
  set (response := api _ margs).
  destruct (stream_loop_shape before u response "" [])
    as (text & shown & Hafter & Hyields & Hall & Hout).
  eexists. exists text. split; [reflexivity|]. cbn [run].
  rewrite Hyields. cbn [app]. repeat split; assumption.
Qed.

(** X14: one turn, [user_message] followed by [bot_message]: the input
    box is cleared, the request carries the system message, the
    flattening of the transcript as it stood and the new user text, and
    when every streamed chunk carries a choice the transcript ends as the
    old one followed by the pair of the user text and the concatenated
    fragments. *)
Theorem user_then_bot_message (api : client) (chat_history : list turn)
    (message system_message : string) (margs : model_args) :
  let request :=
    [Message "system" (Some system_message)]
      ++ convert_gradio_to_openai chat_history
      ++ [Message "user" (Some message)] in
  Forall (fun ch => chunk_choices ch <> []) (api request margs) ->
  fst (user_message message chat_history) = ""
  /\ exists r : bot_run,
       bot_message api (snd (user_message message chat_history))
                   system_message margs = Ok r
       /\ request_messages r = request
       /\ outcome (run r) = Ok tt
       /\ chat_after (run r)
          = chat_history
              ++ [(Some message, Some (join (fragments (api request margs))))].
Proof.
  intros request Hall. split; [reflexivity|].
  unfold user_message. cbn [snd]. unfold bot_message, prep_messages.
  rewrite last_turn_snoc. cbn [bind fst]. rewrite removelast_last.
  rewrite set_last_bot_snoc. fold request.
  rewrite (stream_loop_fragments chat_history (Some message)
             (api request margs) "" [] Hall).
  eexists. split; [reflexivity|]. repeat split.
Qed.

Lemma user_then_bot_message_witness :
  exists r : bot_run,
    bot_message
      (fun _ _ => [ {| chunk_choices := [Some "Go "] |};
                    {| chunk_choices := [Some "on"] |} ])
      (snd (user_message "Hello" [(None, Some "Welcome")]))
      "be brief" default_model_args
    = Ok r
    /\ request_messages r
       = [Message "system" (Some "be brief"); Message "assistant" (Some "Welcome");
          Message "user" (Some "Hello")]
    /\ chat_after (run r) = [(None, Some "Welcome"); (Some "Hello", Some "Go on")].
Proof.
  destruct (user_then_bot_message
              (fun _ _ => [ {| chunk_choices := [Some "Go "] |};
                            {| chunk_choices := [Some "on"] |} ])
              [(None, Some "Welcome")] "Hello" "be brief" default_model_args)
    as (_ & r & Hr & Hreq & _ & Hafter).
  - repeat constructor; discriminate.
  - exists r. split; [exact Hr|]. split; [exact Hreq|exact Hafter].
Defined.

(** X15: the first turn after the interface switch: the transcript
    [initialize_interface] installs has no user text in its first pair,
    so the first request is the system message, the opening message as
    an assistant message (left out when it is empty) and the user text. *)
Theorem first_turn_request (api : client) (initial_message message
    system_message : string) (margs : model_args) :
  let '(_, chat_display, chat_input, chat_submit, start_button) :=
    initialize_interface initial_message in
  tb_visible chat_input = true
  /\ btn_visible chat_submit = true
  /\ btn_visible start_button = false
  /\ exists r : bot_run,
       bot_message api (snd (user_message message (cb_value chat_display)))
                   system_message margs = Ok r
       /\ request_messages r
          = [Message "system" (Some system_message)]
              ++ (if decide (initial_message = "") then []
                  else [Message "assistant" (Some initial_message)])
              ++ [Message "user" (Some message)].
Proof.
  cbn [initialize_interface tb_visible btn_visible cb_value].
  repeat split. unfold user_message. cbn [snd].
  unfold bot_message, prep_messages.
  rewrite (last_turn_snoc [(None, Some initial_message)]).
  cbn [bind fst]. rewrite removelast_last.
  eexists. split; [reflexivity|]. cbn [request_messages].
  destruct initial_message; reflexivity.
Qed.

Lemma has_char_app (c : ascii) (s t : string) :
  has_char c (s +:+ t) = has_char c s || has_char c t.
Proof.
  induction s as [|c' s IH]; [reflexivity|].
  change (has_char c (String c' (s +:+ t))
          = has_char c (String c' s) || has_char c t).
  cbn [has_char]. now rewrite IH, orb_assoc.
Qed.

Lemma str_contains_app (old post : string) :
  forall pre, str_contains old (pre +:+ old +:+ post) = true.
Proof.
  induction pre as [|c pre IH].
  - change ("" +:+ old +:+ post) with (old +:+ post).
    destruct (old +:+ post) eqn:Heq; cbn [str_contains];
      rewrite <- Heq, prefix_app; reflexivity.
  - change (String c pre +:+ old +:+ post) with (String c (pre +:+ old +:+ post)).
    cbn [str_contains]. rewrite IH. apply orb_true_r.
Qed.

Lemma first_char_absent (c0 : ascii) (tail post pre : string) :
  has_char c0 pre = false ->
  forall a b, pre = a +:+ b -> b <> "" ->
              String.prefix (String c0 tail) (b +:+ String c0 tail +:+ post) = false.
Proof.
  intros Habs a b -> Hb. rewrite has_char_app in Habs.
  apply orb_false_iff in Habs as [_ Habs].
  destruct b as [|c b']; [congruence|]. cbn [has_char] in Habs.
  apply orb_false_iff in Habs as [Hc _]. apply bool_decide_eq_false_1 in Hc.
  change (String c b' +:+ String c0 tail +:+ post)
    with (String c (b' +:+ String c0 tail +:+ post)).
  simpl. destruct (ascii_dec c0 c); [congruence|reflexivity].
Qed.

(** X16: when the sentinel occurs once in the last bot text, after a
    part that does not contain the sentinel's first character and before
    a part that does not contain the sentinel, the end check shows the
    two parts joined, with nothing else removed, and ends the interview
    whatever the limit. *)
Theorem interview_end_check_single_sentinel (before : list turn) (u : slot)
    (pre post : string) (limit : Z) (c0 : ascii) (tail : string) :
  has_char c0 pre = false ->
  str_contains (String c0 tail) post = false ->
  exists button input submit,
    interview_end_check (before ++ [(u, Some (pre +:+ String c0 tail +:+ post))])
                        limit (String c0 tail)
    = Ok (before ++ [(u, Some (pre +:+ post))], button, input, submit)
    /\ btn_visible button = true
    /\ tb_visible input = false
    /\ btn_visible submit = false.
Proof.
  intros Hpre Hpost.
  destruct (interview_end_check_run before u (pre +:+ String c0 tail +:+ post)
              limit (String c0 tail))
    as (button & input & submit & Hrun & Hb & Hi & Hs).
  rewrite str_contains_app in Hrun, Hb, Hi, Hs.
  rewrite str_replace_first in Hrun;
    [|discriminate|now apply first_char_absent].
  rewrite (str_replace_absent _ _ _ Hpost) in Hrun.
  exists button, input, submit. repeat split; assumption.
Qed.

Lemma interview_end_check_single_sentinel_witness :
  exists button input submit,
    interview_end_check
      [(Some "Bye", Some "Thanks.<end_of_survey> Goodbye!")]
      default_limit default_end_of_interview
    = Ok ([(Some "Bye", Some "Thanks. Goodbye!")], button, input, submit)
    /\ btn_visible button = true
    /\ tb_visible input = false
    /\ btn_visible submit = false.
Proof.
  apply (interview_end_check_single_sentinel [] (Some "Bye") "Thanks."
           " Goodbye!" default_limit "<"%char "end_of_survey>").
  - vm_compute. reflexivity.
  - vm_compute. reflexivity.
Defined.

(** X17: whenever the end check returns, the transcript it returns has
    as many pairs as the one it was given, the same pairs before the
    last and the same last user slot; the input box and the submit
    button are visible exactly when the exit button is hidden; and a
    transcript that has reached the limit always shows the exit button. *)
Theorem interview_end_check_preserves (chat_history shown : list turn)
    (limit : Z) (end_of_interview : string)
    (button : Button) (input : Textbox) (submit : Button) :
  interview_end_check chat_history limit end_of_interview
  = Ok (shown, button, input, submit) ->
  length shown = length chat_history
  /\ removelast shown = removelast chat_history
  /\ fst <$> last shown = fst <$> last chat_history
  /\ tb_visible input = negb (btn_visible button)
  /\ btn_visible submit = negb (btn_visible button)
  /\ ((limit <= Z.of_nat (length chat_history))%Z -> btn_visible button = true).
Proof.
  intros Hrun.
  destruct chat_history as [|p0 chat'] eqn:Hchat.
  { unfold interview_end_check in Hrun. rewrite last_turn_nil in Hrun.
    discriminate Hrun. }
  destruct (exists_last (l := p0 :: chat')) as (before & [u b] & Hsnoc);
    [discriminate|].
  rewrite Hsnoc in *. clear Hchat Hsnoc p0 chat'.
  destruct b as [text|].
  - destruct (interview_end_check_run before u text limit end_of_interview)
      as (button' & input' & submit' & Hrun' & Hb & Hi & Hs).
    rewrite Hrun' in Hrun. injection Hrun as <- <- <- <-.
    rewrite Hi, Hs, Hb.
    assert (Hshape : exists t,
      (if str_contains end_of_interview text
       then before ++ [(u, Some (str_replace end_of_interview "" text))]
       else before ++ [(u, Some text)]) = before ++ [(u, Some t)]).
    { destruct (str_contains end_of_interview text); eauto. }
    destruct Hshape as [t ->].
    rewrite !length_app, !removelast_last, !last_snoc. cbn [fmap option_fmap option_map fst].
    repeat split.
    intros Hlimit. apply orb_true_iff. right.
    apply bool_decide_eq_true_2. exact Hlimit.
  - unfold interview_end_check in Hrun. rewrite last_turn_snoc in Hrun.
    discriminate Hrun.
Qed.

Lemma interview_end_check_preserves_witness :
  exists shown button input submit,
    interview_end_check
      [(None, Some "Welcome"); (Some "Hi", Some "Bye<end_of_survey>")]
      default_limit default_end_of_interview
    = Ok (shown, button, input, submit)
    /\ length shown = 2
    /\ tb_visible input = negb (btn_visible button).
Proof.
  destruct (interview_end_check
              [(None, Some "Welcome"); (Some "Hi", Some "Bye<end_of_survey>")]
              default_limit default_end_of_interview)
    as [[[[shown button] input] submit]|e] eqn:Hrun.
  - exists shown, button, input, submit. split; [reflexivity|].
    destruct (interview_end_check_preserves _ _ _ _ _ _ _ Hrun)
      as (Hlen & _ & _ & Hi & _).
    split; [exact Hlen|exact Hi].
  - vm_compute in Hrun. discriminate Hrun.
Defined.

Lemma split_slash_plain (b : string) :
  has_char "/" b = false -> split_slash b = [b].
Proof.
  induction b as [|c b IH]; [reflexivity|].
  cbn [has_char split_slash]. intros H.
  apply orb_false_iff in H as [Hc Hb].
  rewrite Hc. now rewrite (IH Hb).
Qed.

Lemma split_slash_logs (b : string) :
  split_slash ("./logs/" +:+ b) = "." :: "logs" :: split_slash b.
Proof. reflexivity. Qed.

Lemma posix_join_relative (a b : string) :
  (forall r, b <> String "/" r) ->
  posix_join a b
  = if bool_decide (a = "") || ends_with_slash a then a +:+ b
    else a +:+ "/" +:+ b.
Proof.
  intros Hrel. destruct b as [|c r]; [reflexivity|].
  destruct c as [[] [] [] [] [] [] [] []]; try reflexivity.
  exfalso. now apply (Hrel r).
Qed.

Lemma jsonl_name (s : string) :
  has_char "/" s = false ->
  has_char "/" (s +:+ ".jsonl") = false
  /\ (forall r, s +:+ ".jsonl" <> String "/" r)
  /\ s +:+ ".jsonl" <> ""
  /\ s +:+ ".jsonl" <> ".".
Proof.
  intros Hs. split; [rewrite has_char_app, Hs; reflexivity|].
  assert (Hlen : 6 <= String.length (s +:+ ".jsonl"))
    by (rewrite str_length_app; simpl; lia).
  split; [|split].
  - destruct s as [|c s']; [discriminate|].
    cbn [has_char] in Hs. apply orb_false_iff in Hs as [Hc _].
    apply bool_decide_eq_false_1 in Hc.
    intros r H. change (String c (s' +:+ ".jsonl") = String "/" r) in H.
    injection H as Hc' _. contradiction.
  - intros H. rewrite H in Hlen. simpl in Hlen. lia.
  - intros H. rewrite H in Hlen. simpl in Hlen. lia.
Qed.

(** X10: for a session id without a slash the log path is
    [logs/<session>.jsonl], so two different such sessions never get the
    same path. *)
Theorem log_path_plain_sessions (s s' : string) :
  has_char "/" s = false ->
  has_char "/" s' = false ->
  log_path chat_logger s = "logs/" +:+ s +:+ ".jsonl"
  /\ (log_path chat_logger s = log_path chat_logger s' -> s = s').
Proof.
  assert (Hpath : forall x, has_char "/" x = false ->
                    log_path chat_logger x = "logs/" +:+ x +:+ ".jsonl").
  { intros x Hx. destruct (jsonl_name x Hx) as (Hplain & Hrel & Hne & Hdot).
    unfold log_path, chat_logger. cbn [logdir].
    rewrite (posix_join_relative _ _ Hrel).
    change (bool_decide ("./logs" = "") || ends_with_slash "./logs") with false.
    cbv iota.
    change ("./logs" +:+ "/" +:+ x +:+ ".jsonl")
      with ("./logs/" +:+ x +:+ ".jsonl").
    unfold path_str.
    change (splitroot ("./logs/" +:+ x +:+ ".jsonl"))
      with ("", "./logs/" +:+ x +:+ ".jsonl").
    cbv beta iota zeta.
    rewrite split_slash_logs, (split_slash_plain _ Hplain).
    rewrite filter_cons_False by (intros [_ H]; now apply H).
    rewrite filter_cons_True by (split; discriminate).
    rewrite filter_cons_True by (split; assumption).
    rewrite filter_nil. cbn [join_slash].
    change ("" +:+ "logs" +:+ "/" +:+ x +:+ ".jsonl")
      with ("logs/" +:+ x +:+ ".jsonl").
    rewrite bool_decide_eq_false_2; [reflexivity|discriminate]. }
  intros Hs Hs'. split; [now apply Hpath|].
  rewrite (Hpath s Hs), (Hpath s' Hs'). intros H.
  apply String.app_inj in H. now apply str_app_inj_r in H.
Qed.

Lemma log_path_plain_sessions_witness :
  log_path chat_logger "s1" = "logs/s1.jsonl"
  /\ (log_path chat_logger "s1" = log_path chat_logger "s2" -> "s1" = "s2").
Proof.
  apply log_path_plain_sessions; vm_compute; reflexivity.
Defined.

End InteractionMore.

(** ** More on the session initializer *)

Section InitializationMore.

Import Utils App Spec.

Lemma format_keys_differ (self : PromptTemplate) (kwargs : gmap string string) :
  kwargs <> ∅ ->
  dom kwargs <> (list_to_set (variables self) : gset string) ->
  format self [] kwargs = Raise ValueError.
Proof.
  intros Hne Hdiff. unfold format.
  rewrite (bool_decide_eq_true_2 (kwargs <> ∅)) by exact Hne.
  now rewrite (bool_decide_eq_true_2 (dom kwargs <> _)) by exact Hdiff.
Qed.

(** X18: session initialization fails at the first lookup that fails,
    after the user line has gone to the application log and before
    anything else does: an identifier missing from the question mapping
    raises [KeyError], a question file that does not exist raises
    [FileNotFoundError], and a [response] that is not an integer literal
    raises [ValueError]. *)
Theorem initialize_interview_lookup_failures (a : assets)
    (request_params : gmap string string) (w : world) :
  let question_id := get_default request_params "questionid" "0" in
  let stopped :=
    World (files w) (fs_open w) (clock w) (clock_reads w)
          (base_log w
             ++ ["User: " +:+ get_default request_params "user" "testUser"
                 +:+ " (Session: "
                 +:+ get_default request_params "session" "testSession"
                 +:+ ")"]) in
  (question_mapping a !! question_id = None ->
   initialize_interview a request_params w = (Raise KeyError, stopped))
  /\ (forall file_name,
        question_mapping a !! question_id = Some file_name ->
        question_files a !! ("./assets/questions/" +:+ file_name) = None ->
        initialize_interview a request_params w = (Raise FileNotFoundError, stopped))
  /\ (forall file_name qd,
        question_mapping a !! question_id = Some file_name ->
        question_files a !! ("./assets/questions/" +:+ file_name) = Some qd ->
        py_int (get_default request_params "response" "0") = Raise ValueError ->
        initialize_interview a request_params w = (Raise ValueError, stopped)).
Proof.
  intros question_id stopped. subst question_id stopped.
  unfold initialize_interview, io_bind, lift, info, ret, getitem, read_file.
  cbn [files fs_open clock clock_reads base_log]. repeat split.
  - intros ->. reflexivity.
  - intros file_name -> ->. reflexivity.
  - intros file_name qd -> -> ->. reflexivity.
Qed.

Lemma initialize_interview_lookup_failures_witness :
  fst (initialize_interview example_assets {[ "questionid" := "7" ]} quiet_world)
  = Raise KeyError
  /\ fst (initialize_interview example_assets {[ "response" := "two" ]} quiet_world)
     = Raise ValueError.
Proof.
  split.
  - destruct (initialize_interview_lookup_failures example_assets
                {[ "questionid" := "7" ]} quiet_world) as (Hkey & _ & _).
    rewrite Hkey; reflexivity.
  - destruct (initialize_interview_lookup_failures example_assets
                {[ "response" := "two" ]} quiet_world) as (_ & _ & Hint).
    rewrite (Hint "q0.json" {| question := "How satisfied were you?";
                               choices := ["Low"; "Medium"; "High"] |});
      reflexivity.
Defined.

(** X19: with the question found and the choice selected, initialization
    still fails when a template is not what it expects: a missing
    template file raises [FileNotFoundError], an opening template whose
    placeholder set is not {surveyQuestion} raises [ValueError], and so
    does a system template whose placeholder set is not
    {surveyQuestion, responseVal}. *)
Theorem initialize_interview_template_failures (a : assets)
    (request_params : gmap string string) (w : world)
    (file_name : string) (qd : question_data) (i : Z) :
  question_mapping a !! get_default request_params "questionid" "0" = Some file_name ->
  question_files a !! ("./assets/questions/" +:+ file_name) = Some qd ->
  py_int (get_default request_params "response" "0") = Ok i ->
  index_valid (length (choices qd)) i ->
  (template_files a !! "assets/initial_message.txt" = None ->
   fst (initialize_interview a request_params w) = Raise FileNotFoundError)
  /\ (forall initial_template,
        template_files a !! "assets/initial_message.txt" = Some initial_template ->
        (list_to_set (variables initial_template) : gset string)
          <> {[ "surveyQuestion" ]} ->
        fst (initialize_interview a request_params w) = Raise ValueError)
  /\ (forall initial_template,
        template_files a !! "assets/initial_message.txt" = Some initial_template ->
        (list_to_set (variables initial_template) : gset string)
          = {[ "surveyQuestion" ]} ->
        (template_files a !! "assets/system_message.txt" = None ->
         fst (initialize_interview a request_params w) = Raise FileNotFoundError)
        /\ (forall system_template,
              template_files a !! "assets/system_message.txt" = Some system_template ->
              (list_to_set (variables system_template) : gset string)
                <> {[ "surveyQuestion"; "responseVal" ]} ->
              fst (initialize_interview a request_params w) = Raise ValueError)).
Proof.
  intros Hmap Hfile Hint Hok.
  destruct (py_index_valid _ _ Hok) as (text & _ & Hsel).
  unfold initialize_interview, io_bind, lift, info, ret, getitem, read_file,
    from_file, read_file.
  cbn [fst snd]. rewrite Hmap, Hfile, Hint, Hsel. split; [|split].
  - intros ->. reflexivity.
  - intros ti -> Hdiff. rewrite format_keys_differ; [reflexivity| |].
    + apply insert_non_empty.
    + now rewrite dom_singleton_L.
  - intros ti -> Hvi.
    assert (Hinitial : format ti [] {[ "surveyQuestion" := question qd ]}
                       = Ok (substitute (template ti)
                               {[ "surveyQuestion" := question qd ]})).
    { apply format_kwargs_ok.
      - apply insert_non_empty.
      - now rewrite Hvi, dom_singleton_L.
      - apply (variables_keyword _ _ Hvi). intros name Hname.
        apply elem_of_singleton in Hname. subst name.
        split; [discriminate|split; reflexivity]. }
    rewrite Hinitial. split.
    + intros ->. reflexivity.
    + intros ts -> Hdiff. rewrite format_keys_differ; [reflexivity| |].
      * apply insert_non_empty.
      * now rewrite dom_insert_L, dom_singleton_L.
Qed.

Lemma initialize_interview_template_failures_witness :
  fst (initialize_interview
         {| question_mapping := question_mapping example_assets;
            question_files := question_files example_assets;
            template_files :=
              {[ "assets/initial_message.txt" :=
                   {| template := [("About ", Some "question")] |} ]} |}
         ∅ quiet_world)
  = Raise ValueError.
Proof.
  destruct (initialize_interview_template_failures
              {| question_mapping := question_mapping example_assets;
                 question_files := question_files example_assets;
                 template_files :=
                   {[ "assets/initial_message.txt" :=
                        {| template := [("About ", Some "question")] |} ]} |}
              ∅ quiet_world "q0.json"
              {| question := "How satisfied were you?";
                 choices := ["Low"; "Medium"; "High"] |} 0)
    as (_ & Hinitial & _); [reflexivity..| |].
  - vm_compute. split; [discriminate|reflexivity].
  - apply (Hinitial {| template := [("About ", Some "question")] |});
      [reflexivity|]. vm_compute. discriminate.
Defined.

End InitializationMore.

(** ** Completion and archive *)

Section Completion.

Import Utils App Spec.


(** X21: what the archive holds for a session can be turned back into
    the transcript that was shown: for a transcript that starts with the
    opening bot message and goes on with fully populated pairs, grouping
    the archived records with [convert_openai_to_gradio] returns it. *)
Theorem archived_transcript_regroups (uuid session_id opening : string)
    (T : list turn) (store : gmap string (list message)) :
  opening <> "" ->
  well_formed T ->
  exists records,
    snd (end_interview uuid session_id ((None, Some opening) :: T) store)
      !! session_id = Some records
    /\ convert_openai_to_gradio records = Ok ((None, Some opening) :: T).
Proof.
  intros Hopen HT. eexists. split.
  - unfold end_interview, upload_interview, upload_azure, upload_blob.
    cbn [snd]. apply lookup_insert_eq.
  - rewrite (flat_opening opening T Hopen).
    exact (regroup_behind_assistant (Some opening) T HT).
Qed.

Lemma archived_transcript_regroups_witness :
  exists records,
    snd (end_interview "1b4e28ba" "s1"
           [(None, Some "Welcome"); (Some "Hello", Some "Go on")] ∅)
      !! "s1" = Some records
    /\ convert_openai_to_gradio records
       = Ok [(None, Some "Welcome"); (Some "Hello", Some "Go on")].
Proof.
  apply archived_transcript_regroups.
  - discriminate.
  - repeat constructor.
Defined.

End Completion.
